(** * Smart Library seat booking: the CSV store, the occupancy resolver
      and the expiry sweeper of [code.py], as a shallow embedding.

    The booking log [bookings.csv] is read with [csv.DictReader] and
    rewritten with [csv.DictWriter]; the embedding works on what those two
    exchange with the program: the file either does not exist or holds the
    header and a list of rows, each row a dictionary of seven strings.
    Python's builtins used by the source ([str.strip], [int], [str],
    [datetime.strptime], [strftime], [timedelta] addition) are modelled in
    the modules [Py] and [Datetime]. *)

From Stdlib Require Import ZArith Lia Bool List String Ascii.
From Stdlib Require Import DecimalString DecimalZ DecimalPos.
From stdpp Require Import gmap strings list.

Local Open Scope Z_scope.

(** ** Exceptions *)

Inductive exn : Set :=
| ValueError      (* int() or strptime() on text it does not accept *)
| OverflowError   (* datetime arithmetic out of range *)
| OSError.        (* open(..., "w") refused by the operating system *)

Inductive result (A : Type) : Type :=
| Ok (a : A)
| Raise (e : exn).
Arguments Ok {A} a.
Arguments Raise {A} e.

#[global] Instance result_ret : MRet result := fun A a => Ok a.
#[global] Instance result_bind : MBind result :=
  fun A B f m => match m with Ok a => f a | Raise e => Raise e end.

Definition is_Ok {A} (r : result A) : Prop := exists a, r = Ok a.

(** ** Python builtins on text

    A [string] stands for a Python [str] whose code points are below 256. *)

Module Py.

Definition code (c : ascii) : Z := Z.of_N (N_of_ascii c).

(** [str.isspace] on one character: TAB..CR, FS..US, space, NEL, NBSP. *)
Definition isspace (c : ascii) : bool :=
  let n := code c in
  ((9 <=? n) && (n <=? 13)) || ((28 <=? n) && (n <=? 32))
  || (n =? 133) || (n =? 160).

(** The decimal digits; below 256 these are only ["0"] to ["9"]. *)
Definition isdigit (c : ascii) : bool :=
  let n := code c in (48 <=? n) && (n <=? 57).

(** The whitespace [int] skips around a literal: the C locale's spaces
    and, of the others, those above 127 (NEL, NBSP); FS..US are not. *)
Definition isspace_int (c : ascii) : bool :=
  let n := code c in
  ((9 <=? n) && (n <=? 13)) || (n =? 32) || (n =? 133) || (n =? 160).

Fixpoint lstrip_by (p : ascii -> bool) (s : string) : string :=
  match s with
  | String c s' => if p c then lstrip_by p s' else s
  | EmptyString => EmptyString
  end.

Fixpoint rstrip_by (p : ascii -> bool) (s : string) : string :=
  match s with
  | String c s' =>
      match rstrip_by p s' with
      | EmptyString => if p c then EmptyString else String c EmptyString
      | t => String c t
      end
  | EmptyString => EmptyString
  end.

(** [s.strip()] *)
Definition strip (s : string) : string := rstrip_by isspace (lstrip_by isspace s).

(** The digits of a decimal literal: single underscores are allowed
    between digits and dropped; [prev] tells whether the previous
    character was a digit. *)
Fixpoint digits_of (prev : bool) (s : string) : option string :=
  match s with
  | EmptyString => if prev then Some EmptyString else None
  | String c s' =>
      if isdigit c then String c <$> digits_of true s'
      else if Ascii.eqb c "_" && prev then digits_of false s'
      else None
  end.

Definition unsigned (s : string) : option Z :=
  ds ← digits_of false s;
  Z.of_uint <$> NilEmpty.uint_of_string ds.

(** [int(s)] on a string: surrounding whitespace, an optional sign,
    then the digits; [ValueError] otherwise. CPython also refuses a
    literal of more than 4300 digits ([sys.int_max_str_digits]); this is
    the conversion below that limit, and where a statement reads [int] as
    a test of a text it bounds the length of the text. *)
Definition int (s : string) : result Z :=
  let r :=
    match rstrip_by isspace_int (lstrip_by isspace_int s) with
    | String "+" s' => unsigned s'
    | String "-" s' => Z.opp <$> unsigned s'
    | s' => unsigned s'
    end in
  match r with
  | Some z => Ok z
  | None => Raise ValueError
  end.

(** [str(z)] on an integer *)
Definition str (z : Z) : string := NilZero.string_of_int (Z.to_int z).

(** Truth value of a string: [not s] holds for the empty string only. *)
Definition not_ (s : string) : bool :=
  match s with
  | EmptyString => true
  | String _ _ => false
  end.

Fixpoint alldigits (s : string) : bool :=
  match s with
  | EmptyString => true
  | String c s' => isdigit c && alldigits s'
  end.

End Py.

(** ** Python's [datetime]

    A naive [datetime] is a point on the proleptic Gregorian time line
    between 0001-01-01 00:00:00 and 9999-12-31 23:59:59.999999; it is
    represented by the number of microseconds since the first of these.
    Comparison of two datetimes is comparison of these numbers. The
    calendar functions follow the reference implementation of the
    [datetime] module. *)

Module Datetime.

Definition datetime : Type := Z.

Definition is_leap (year : Z) : bool :=
  (year mod 4 =? 0) && (negb (year mod 100 =? 0) || (year mod 400 =? 0)).

Definition days_before_year (year : Z) : Z :=
  let y := year - 1 in y * 365 + y / 4 - y / 100 + y / 400.

Definition DAYS_IN_MONTH (month : Z) : Z :=
  match month with
  | 1 => 31 | 2 => 28 | 3 => 31 | 4 => 30 | 5 => 31 | 6 => 30
  | 7 => 31 | 8 => 31 | 9 => 30 | 10 => 31 | 11 => 30 | 12 => 31
  | _ => -1
  end.

Definition DAYS_BEFORE_MONTH (month : Z) : Z :=
  match month with
  | 1 => 0 | 2 => 31 | 3 => 59 | 4 => 90 | 5 => 120 | 6 => 151
  | 7 => 181 | 8 => 212 | 9 => 243 | 10 => 273 | 11 => 304 | 12 => 334
  | _ => -1
  end.

Definition days_in_month (year month : Z) : Z :=
  if (month =? 2) && is_leap year then 29 else DAYS_IN_MONTH month.

Definition days_before_month (year month : Z) : Z :=
  DAYS_BEFORE_MONTH month + (if (2 <? month) && is_leap year then 1 else 0).

(** year, month, day to ordinal, 0001-01-01 being day 1 *)
Definition ymd2ord (year month day : Z) : Z :=
  days_before_year year + days_before_month year month + day.

Definition DI400Y : Z := 146097.
Definition DI100Y : Z := 36524.
Definition DI4Y : Z := 1461.

(** ordinal to (year, month, day) *)
Definition ord2ymd (n0 : Z) : Z * Z * Z :=
  let n := n0 - 1 in
  let n400 := n / DI400Y in let n := n mod DI400Y in
  let year := n400 * 400 + 1 in
  let n100 := n / DI100Y in let n := n mod DI100Y in
  let n4 := n / DI4Y in let n := n mod DI4Y in
  let n1 := n / 365 in let n := n mod 365 in
  let year := year + n100 * 100 + n4 * 4 + n1 in
  if (n1 =? 4) || (n100 =? 4) then (year - 1, 12, 31)
  else
    let leapyear := (n1 =? 3) && (negb (n4 =? 24) || (n100 =? 3)) in
    let month := Z.shiftr (n + 50) 5 in
    let preceding :=
      DAYS_BEFORE_MONTH month + (if (2 <? month) && leapyear then 1 else 0) in
    if n <? preceding then
      let month := month - 1 in
      let preceding :=
        preceding
        - (DAYS_IN_MONTH month + (if (month =? 2) && leapyear then 1 else 0)) in
      (year, month, n - preceding + 1)
    else (year, month, n - preceding + 1).

Definition MINYEAR : Z := 1.
Definition MAXYEAR : Z := 9999.
Definition MAXORDINAL : Z := 3652059.   (* date(9999, 12, 31).toordinal() *)

Definition US_PER_SECOND : Z := 1000000.
Definition US_PER_MINUTE : Z := 60 * US_PER_SECOND.
Definition US_PER_DAY : Z := 86400 * US_PER_SECOND.
Definition MAX : Z := MAXORDINAL * US_PER_DAY.   (* first instant out of range *)


(** The checks of the [datetime(...)] constructor. *)
Definition check_fields (year month day hour minute second : Z) : bool :=
  (MINYEAR <=? year) && (year <=? MAXYEAR)
  && (1 <=? month) && (month <=? 12)
  && (1 <=? day) && (day <=? days_in_month year month)
  && (0 <=? hour) && (hour <=? 23)
  && (0 <=? minute) && (minute <=? 59)
  && (0 <=? second) && (second <=? 59).

Definition of_fields (year month day hour minute second : Z) : datetime :=
  (((ymd2ord year month day - 1) * 24 + hour) * 60 + minute) * US_PER_MINUTE
  + second * US_PER_SECOND.

(** [t + timedelta(minutes=m)]: [OverflowError] when the sum leaves the
    range of [datetime] (an out-of-range [timedelta] always does). *)
Definition add_minutes (t : datetime) (m : Z) : result datetime :=
  let r := t + m * US_PER_MINUTE in
  if (0 <=? r) && (r <? MAX) then Ok r else Raise OverflowError.

(** The readings [datetime.now()] is taken to return: from the year
    1000 on, where ["%Y"] prints four digits on every platform. *)
Definition Y1000 : datetime := of_fields 1000 1 1 0 0 0.
Definition wall_clock (t : datetime) : Prop := Y1000 <= t < MAX.

(** The datetime without its microseconds, as [strftime] prints it. *)
Definition whole_seconds (t : datetime) : datetime := t - t mod US_PER_SECOND.

(** *** [strftime("%Y-%m-%d %H:%M:%S")] *)

Definition digit (n : Z) : ascii := ascii_of_N (Z.to_N (48 + n)).

Definition pad2 (n : Z) (rest : string) : string :=
  String (digit (n / 10)) (String (digit (n mod 10)) rest).

Definition pad4 (n : Z) (rest : string) : string :=
  String (digit (n / 1000)) (String (digit (n / 100 mod 10)) (pad2 (n mod 100) rest)).

Definition strftime (t : datetime) : string :=
  let secs := t / US_PER_SECOND in
  let '(year, month, day) := ord2ymd (secs / 86400 + 1) in
  let sod := secs mod 86400 in
  pad4 year (String "-" (pad2 month (String "-" (pad2 day (String " "
    (pad2 (sod / 3600) (String ":" (pad2 (sod / 60 mod 60) (String ":"
      (pad2 (sod mod 60) EmptyString)))))))))).

(** *** [strptime(s, "%Y-%m-%d %H:%M:%S")]

    The format is compiled to the regular expression
    [(\d\d\d\d)-(1[0-2]|0[1-9]|[1-9])-(3[0-1]|[1-2]\d|0[1-9]|[1-9]| [1-9])\s+
     (2[0-3]|[0-1]\d|\d):([0-5]\d|\d):(6[0-1]|[0-5]\d|\d)],
    matched at the start of the string by a backtracking matcher, which
    is written here in continuation style: each piece gets the rest of
    the pattern as [k] and tries its alternatives in order. *)

Definition digit_val (c : ascii) : option Z :=
  if Py.isdigit c then Some (Py.code c - 48) else None.

Section Matcher.
Context {T : Type}.

Definition orelse (a b : option T) : option T :=
  match a with Some x => Some x | None => b end.

Fixpoint alt (ps : list (string -> (Z -> string -> option T) -> option T))
    (s : string) (k : Z -> string -> option T) : option T :=
  match ps with
  | [] => None
  | p :: ps' => orelse (p s k) (alt ps' s k)
  end.

(** one digit of the class [[lo-hi]] *)
Definition cls1 (lo hi : Z) (s : string) (k : Z -> string -> option T) : option T :=
  match s with
  | String a r =>
      match digit_val a with
      | Some a => if (lo <=? a) && (a <=? hi) then k a r else None
      | None => None
      end
  | EmptyString => None
  end.

(** two digits of the classes [[lo1-hi1][lo2-hi2]] *)
Definition cls2 (lo1 hi1 lo2 hi2 : Z) (s : string) (k : Z -> string -> option T)
    : option T :=
  cls1 lo1 hi1 s (fun a r => cls1 lo2 hi2 r (fun b r' => k (10 * a + b) r')).

Definition lit (c : ascii) (s : string) (k : string -> option T) : option T :=
  match s with
  | String a r => if Ascii.eqb a c then k r else None
  | EmptyString => None
  end.

(** [\s*] and [\s+], greedy *)
Fixpoint spaces0 (s : string) (k : string -> option T) : option T :=
  match s with
  | String a r => if Py.isspace a then orelse (spaces0 r k) (k s) else k s
  | EmptyString => k s
  end.

Definition spaces (s : string) (k : string -> option T) : option T :=
  match s with
  | String a r => if Py.isspace a then spaces0 r k else None
  | EmptyString => None
  end.

Definition re_Y (s : string) (k : Z -> string -> option T) : option T :=
  cls2 0 9 0 9 s (fun hi r => cls2 0 9 0 9 r (fun lo r' => k (100 * hi + lo) r')).

Definition re_m := alt [cls2 1 1 0 2; cls2 0 0 1 9; cls1 1 9].

Definition re_d :=
  alt [cls2 3 3 0 1; cls2 1 2 0 9; cls2 0 0 1 9; cls1 1 9;
       fun s k => lit " " s (fun r => cls1 1 9 r k)].

Definition re_H := alt [cls2 2 2 0 3; cls2 0 1 0 9; cls1 0 9].
Definition re_M := alt [cls2 0 5 0 9; cls1 0 9].
Definition re_S := alt [cls2 6 6 0 1; cls2 0 5 0 9; cls1 0 9].

End Matcher.

Definition fields : Type := Z * Z * Z * Z * Z * Z.

(** The groups of the first match and the unmatched rest of the string. *)
Definition regex_match (s : string) : option (fields * string) :=
  re_Y s (fun year s => lit "-" s (fun s =>
  re_m s (fun month s => lit "-" s (fun s =>
  re_d s (fun day s => spaces s (fun s =>
  re_H s (fun hour s => lit ":" s (fun s =>
  re_M s (fun minute s => lit ":" s (fun s =>
  re_S s (fun second s => Some (year, month, day, hour, minute, second, s)))))))))))).

Definition strptime (s : string) : result datetime :=
  match regex_match s with
  | Some (year, month, day, hour, minute, second, EmptyString) =>
      if check_fields year month day hour minute second
      then Ok (of_fields year month day hour minute second)
      else Raise ValueError
  | Some (_, String _ _) => Raise ValueError   (* unconverted data remains *)
  | None => Raise ValueError                   (* does not match format *)
  end.

End Datetime.


(** ** The record store: [bookings.csv]

    One row as [csv.DictReader] yields it and [csv.DictWriter] takes it:
    the seven columns of the header, every value a string. A line with
    fewer fields reads as [None] in the missing columns, which the
    program only compares with ["Occupied"] and writes back as empty
    text: it stands here as the row with empty text there. A line with
    more than seven fields, which [DictWriter] refuses to write back, is
    not a [row]. *)

Record row : Type := Row {
  seat_id : string;
  name : string;
  mobile : string;
  duration : string;
  entry_time : string;
  start_time : string;
  status : string
}.

(** The file system as far as the program touches it: [BOOKINGS_CSV] is
    absent ([None]) or holds the header line and some rows, and opening it
    for writing is allowed or refused. A refused [open(..., "w")] raises
    before anything is written and leaves the file as it was; this is the
    one failure of a write in [write_rows]. A write that fails once the
    file is open has truncated it, and no such failure is in
    [write_rows]: what is stated below of a handler whose write raises
    holds whatever the write left in the file. *)
Record FS : Type := {
  csv : option (list row);
  writable : bool
}.

(** Code that reads and writes the file and may raise. *)
Definition IO (A : Type) : Type := FS -> result A * FS.

#[global] Instance IO_ret : MRet IO := fun A a fs => (Ok a, fs).
#[global] Instance IO_bind : MBind IO :=
  fun A B f m fs =>
    match m fs with
    | (Ok a, fs') => f a fs'
    | (Raise e, fs') => (Raise e, fs')
    end.

Definition lift {A} (r : result A) : IO A := fun fs => (r, fs).

(** [BOOKINGS_CSV.exists()] *)
Definition exists_ : IO bool :=
  fun fs => (Ok (match csv fs with Some _ => true | None => false end), fs).

(** [open(BOOKINGS_CSV, newline="")] and [csv.DictReader(f)] *)
Definition read_rows : IO (list row) :=
  fun fs =>
    match csv fs with
    | Some rows => (Ok rows, fs)
    | None => (Raise OSError, fs)
    end.

(** [open(BOOKINGS_CSV, "w", newline="")], [writeheader()], [writerows(rows)] *)
Definition write_rows (rows : list row) : IO unit :=
  fun fs =>
    if writable fs then (Ok tt, {| csv := Some rows; writable := true |})
    else (Raise OSError, fs).

(** A [for] loop whose body may raise. *)
Fixpoint for_each {A S : Type} (body : S -> A -> result S) (acc : S) (l : list A)
    : result S :=
  match l with
  | [] => Ok acc
  | x :: l' => acc' ← body acc x; for_each body acc' l'
  end.

(** The records of the store; a missing file has none. *)
Definition records (fs : FS) : list row :=
  match csv fs with
  | Some rows => rows
  | None => []
  end.

(** *** CSV handlers *)

Definition ensure_csv : IO unit :=
  ex ← exists_;
  if negb ex then write_rows [] else mret tt.

(** What the resolver reports for a seat: [(end, name, mobile, entry_time)]. *)
Definition entry : Type := Datetime.datetime * string * string * string.

(** The body of the loop of [read_active_bookings]; [now] is the reading
    of the wall clock, taken as one value for the whole call. *)
Definition end_time (r : row) : result Datetime.datetime :=
  start ← Datetime.strptime (start_time r);
  d ← Py.int (duration r);
  Datetime.add_minutes start d.

Definition active_body (now : Datetime.datetime) (active : gmap Z entry) (r : row)
    : result (gmap Z entry) :=
  if String.eqb (status r) "Occupied" then
    end_ ← end_time r;
    if now <? end_ then
      sid ← Py.int (seat_id r);
      Ok (<[sid := (end_, name r, mobile r, entry_time r)]> active)
    else Ok active
  else Ok active.

Definition read_active_bookings (now : Datetime.datetime) : IO (gmap Z entry) :=
  ex ← exists_;
  if ex : bool then
    rows ← read_rows;
    lift (for_each (active_body now) ∅ rows)
  else mret ∅.

(** The dictionary [add_booking] appends, as [DictWriter] writes it. *)
Definition new_booking (now : Datetime.datetime)
    (seat : Z) (name_ mobile_ : string) (duration_ : Z) (entry_time_ : string) : row :=
  {| seat_id := Py.str seat;
     name := name_;
     mobile := mobile_;
     duration := Py.str duration_;
     entry_time := entry_time_;
     start_time := Datetime.strftime now;
     status := "Occupied" |}.

Definition add_booking (now : Datetime.datetime)
    (seat : Z) (name_ mobile_ : string) (duration_ : Z) (entry_time_ : string)
    : IO unit :=
  ex ← exists_;
  rows ← (if ex : bool then
            rs ← read_rows;
            lift (for_each (fun rows r =>
                    sid ← Py.int (seat_id r);
                    Ok (if bool_decide (sid ≠ seat) then rows ++ [r] else rows))
                  [] rs)
          else mret []) : IO (list row);
  write_rows (rows ++ [new_booking now seat name_ mobile_ duration_ entry_time_]).

Definition set_row_status (r : row) (status_ : string) : row :=
  {| seat_id := seat_id r; name := name r; mobile := mobile r;
     duration := duration r; entry_time := entry_time r;
     start_time := start_time r; status := status_ |}.

Definition update_booking_status (seat : Z) (status_ : string) : IO unit :=
  ex ← exists_;
  rows ← (if ex : bool then
            rs ← read_rows;
            lift (for_each (fun rows r =>
                    sid ← Py.int (seat_id r);
                    Ok (rows ++ [if bool_decide (sid = seat)
                                 then set_row_status r status_ else r]))
                  [] rs)
          else mret []) : IO (list row);
  write_rows rows.

(** ** The application: [SmartLibraryApp]

    Of the object only [self.active], the cache of the last resolver
    result, matters to the store; widgets are left out. A handler is given
    the clock reading [now] under which it runs. *)

Record App : Type := {
  active : gmap Z entry;
  disk : FS
}.

Definition UI (A : Type) : Type := App -> result A * App.

#[global] Instance UI_ret : MRet UI := fun A a app => (Ok a, app).
#[global] Instance UI_bind : MBind UI :=
  fun A B f m app =>
    match m app with
    | (Ok a, app') => f a app'
    | (Raise e, app') => (Raise e, app')
    end.

(** A call of a CSV handler from a method. *)
Definition on_disk {A} (io : IO A) : UI A :=
  fun app =>
    let '(r, fs) := io (disk app) in
    (r, {| active := active app; disk := fs |}).

(** [self.active = a] *)
Definition set_active (a : gmap Z entry) : UI unit :=
  fun app => (Ok tt, {| active := a; disk := disk app |}).

(** [self.active.pop(seat_id, None)] *)
Definition pop_active (seat : Z) : UI unit :=
  fun app => (Ok tt, {| active := delete seat (active app); disk := disk app |}).

(** The message boxes a handler ends with. *)
Inductive dialog : Type :=
| Error_invalid_input
| Info_booked (seat duration_ : Z)
| Info_all_reset
| No_dialog.

Definition refresh_booking_list (now : Datetime.datetime) : UI unit :=
  _ ← on_disk (read_active_bookings now);
  mret tt.

Definition refresh_ui (now : Datetime.datetime) : UI unit :=
  a ← on_disk (read_active_bookings now);
  _ ← set_active a;
  refresh_booking_list now.

(** The four [Entry] widgets of the booking popup. *)
Record entries : Type := {
  Name : string;
  Mobile : string;
  Duration : string;
  Entry_Time : string
}.

(** The [try] block of [confirm]. *)
Definition parse_entries (e : entries) : result (string * string * Z * string) :=
  let name_ := Py.strip (Name e) in
  let mobile_ := Py.strip (Mobile e) in
  duration_ ← Py.int (Py.strip (Duration e));
  let entry_time_ := Py.strip (Entry_Time e) in
  if Py.not_ name_ || Py.not_ mobile_ || Py.not_ entry_time_
  then Raise ValueError
  else Ok (name_, mobile_, duration_, entry_time_).

(** [book_seat.confirm], the handler of "Confirm Booking". *)
Definition confirm (seat : Z) (now : Datetime.datetime) (e : entries) : UI dialog :=
  match parse_entries e with
  | Raise _ => mret Error_invalid_input          (* bare [except]: show, return *)
  | Ok (name_, mobile_, duration_, entry_time_) =>
      _ ← on_disk (add_booking now seat name_ mobile_ duration_ entry_time_);
      a ← on_disk (read_active_bookings now);
      _ ← set_active a;
      _ ← refresh_ui now;
      _ ← refresh_booking_list now;
      mret (Info_booked seat duration_)
  end.

Definition reset_seat (seat : Z) (now : Datetime.datetime) : UI unit :=
  _ ← on_disk (update_booking_status seat "Free");
  _ ← pop_active seat;
  _ ← refresh_ui now;
  refresh_booking_list now.

(** [reset_all]; [yes] is the answer to the [askyesno] box. *)
Definition reset_all (yes : bool) (now : Datetime.datetime) : UI dialog :=
  if yes then
    _ ← on_disk ensure_csv;          (* recreate CSV with header *)
    _ ← set_active ∅;
    _ ← refresh_ui now;
    _ ← refresh_booking_list now;
    mret Info_all_reset
  else mret No_dialog.

(** *** The expiry sweeper

    One pass of the [for] loop of [auto_reset_thread] over the snapshot
    [list(self.active.items())], given as [items]; the result lists the
    "Time Over" notifications handed to the main loop, as
    [(seat_id, name)]. *)
Fixpoint sweep_items (now : Datetime.datetime) (items : list (Z * entry))
    (sent : list (Z * string)) : UI (list (Z * string)) :=
  match items with
  | [] => mret sent
  | (seat, (end_, name_, _, _)) :: items' =>
      if end_ <=? now then
        _ ← on_disk (update_booking_status seat "Free");
        _ ← pop_active seat;
        sweep_items now items' (sent ++ [(seat, name_)])
      else sweep_items now items' sent
  end.

(** The pass over the cache. The dictionary of the program lists its
    items in insertion order, which a [gmap] does not keep: [map_to_list]
    stands for that list, and what depends on the order of the snapshot
    is stated of [sweep_items] for every enumeration of the cache. *)
Definition sweep (now : Datetime.datetime) (sent : list (Z * string))
    : UI (list (Z * string)) :=
  fun app => sweep_items now (map_to_list (active app)) sent app.

(** The pass as the thread makes it while the rest of the program and of
    the machine go on: [update_booking_status] opens the file anew for
    every seat that is over, and [world] is what has happened to the
    application and the file by then. With nothing happening this is
    [sweep_items]. *)
Fixpoint sweep_items_with (world : App -> App) (now : Datetime.datetime)
    (items : list (Z * entry)) (sent : list (Z * string)) : UI (list (Z * string)) :=
  match items with
  | [] => mret sent
  | (seat, (end_, name_, _, _)) :: items' =>
      if end_ <=? now then
        fun app =>
          (_ ← on_disk (update_booking_status seat "Free");
           _ ← pop_active seat;
           sweep_items_with world now items' (sent ++ [(seat, name_)])) (world app)
      else sweep_items_with world now items' sent
  end.

Definition sweep_with (world : App -> App) (now : Datetime.datetime)
    (sent : list (Z * string)) : UI (list (Z * string)) :=
  fun app => sweep_items_with world now (map_to_list (active app)) sent app.

(** The [while True] loop, run for the given ticks. A tick carries what
    the rest of the world does to the application and the file, while the
    thread sleeps and again before each write of its pass, and the clock
    reading the thread takes on waking up. [Ok] is a thread still in its
    loop after these ticks, [Raise] a thread ended by an exception that
    left the loop. *)
Fixpoint auto_reset_thread (ticks : list ((App -> App) * Datetime.datetime))
    (sent : list (Z * string)) : UI (list (Z * string)) :=
  match ticks with
  | [] => mret sent
  | (env, now) :: ticks' =>
      fun app =>
        match sweep_with env now sent (env app) with
        | (Ok sent', app') => auto_reset_thread ticks' sent' app'
        | (Raise e, app') => (Raise e, app')
        end
  end.

(** ** The vocabulary of the specification *)

#[global] Instance exn_eq_dec : EqDecision exn.
Proof. solve_decision. Defined.

#[global] Instance result_eq_dec {A} `{EqDecision A} : EqDecision (result A).
Proof. solve_decision. Defined.

#[global] Instance is_Ok_dec {A} (r : result A) : Decision (is_Ok r).
Proof.
  destruct r as [a|e]; [left; now exists a | right; intros [a H]; discriminate H].
Defined.

(** [r] is a record of seat [seat]: its [seat_id] reads as that integer. *)
Definition has_seat (seat : Z) (r : row) : Prop := Py.int (seat_id r) = Ok seat.

#[global] Instance has_seat_dec seat r : Decision (has_seat seat r).
Proof. unfold has_seat. apply _. Defined.

(** Every [seat_id] of the store reads as an integer. *)
Definition seats_readable (rows : list row) : Prop :=
  Forall (fun r => is_Ok (Py.int (seat_id r))) rows.

#[global] Instance seats_readable_dec rows : Decision (seats_readable rows).
Proof. unfold seats_readable. apply _. Defined.

(** The row [update_booking_status] writes in the place of [r]. *)
Definition mark (seat : Z) (status_ : string) (r : row) : row :=
  if decide (has_seat seat r) then set_row_status r status_ else r.

(** [r'] is [r] up to the status field. *)
Definition same_but_status (r r' : row) : Prop :=
  seat_id r' = seat_id r /\ name r' = name r /\ mobile r' = mobile r
  /\ duration r' = duration r /\ entry_time r' = entry_time r
  /\ start_time r' = start_time r.

(** A store [update_booking_status] can rewrite. *)
Definition updatable (fs : FS) : Prop :=
  writable fs = true /\ seats_readable (records fs).

(** At most one record per seat. *)
Definition one_record_per_seat (rows : list row) : Prop :=
  forall seat, (length (filter (has_seat seat) rows) <= 1)%nat.

(** A record is active at [now]: Occupied, and [now] before its end. *)
Definition is_active (now : Datetime.datetime) (r : row) : Prop :=
  status r = "Occupied"%string /\ exists e, end_time r = Ok e /\ now < e.

(** What the resolver reports for an Occupied record that ends at [e]. *)
Definition entry_of (e : Datetime.datetime) (r : row) : entry :=
  (e, name r, mobile r, entry_time r).

(** What one pass of the loop of [read_active_bookings] does with a row:
    it skips it ([None]), stores an entry under a key, or raises. *)
Definition reported (now : Datetime.datetime) (r : row) : result (option (Z * entry)) :=
  if String.eqb (status r) "Occupied" then
    end_ ← end_time r;
    if now <? end_ then
      sid ← Py.int (seat_id r);
      Ok (Some (sid, entry_of end_ r))
    else Ok None
  else Ok None.

(** A record the resolver gets through: not Occupied, or with an end
    time and a seat number it can compute. *)
Definition row_readable (r : row) : Prop :=
  status r = "Occupied"%string -> is_Ok (end_time r) /\ is_Ok (Py.int (seat_id r)).

(** When a booking made at [now] for [duration_] minutes ends: the start
    time is written to the second. *)
Definition booking_end (now : Datetime.datetime) (duration_ : Z) : Datetime.datetime :=
  Datetime.whole_seconds now + duration_ * Datetime.US_PER_MINUTE.

(** ** Sample stores *)

(** 2026-11-04 10:10:00.123456 *)
Definition t0 : Datetime.datetime := 63929383800123456.

Definition half_minute : Z := 30 * Datetime.US_PER_SECOND.

Definition fs_empty : FS := {| csv := Some []; writable := true |}.

(** Seat 3 booked by Asha for one minute at [t0]. *)
Definition asha : row := new_booking t0 3 "Asha" "9999999999" 1 "10:10".
Definition asha_end : Datetime.datetime := 63929383860000000.   (* 10:11:00 *)
Definition fs_asha : FS := {| csv := Some [asha]; writable := true |}.

Definition app_empty : App := {| active := ∅; disk := fs_empty |}.
Definition app_asha : App :=
  {| active := {[ 3 := entry_of asha_end asha ]}; disk := fs_asha |}.

(** Seats 1 to 5 booked at [t0] for an hour each, and the application
    after a refresh. *)
Definition book (seat : Z) (name_ : string) (fs : FS) : FS :=
  snd (add_booking t0 seat name_ "9999999999" 60 "10:10" fs).
Definition fs_five : FS :=
  book 5 "Esha" (book 4 "Dev" (book 3 "Chitra" (book 2 "Bala" (book 1 "Asha" fs_empty)))).
Definition app_five : App := snd (refresh_ui t0 {| active := ∅; disk := fs_five |}).

(** Asha's booking cached, and the file refused for writing; the
    environment step that lets the file be written again. *)
Definition app_stuck : App :=
  {| active := {[ 3 := entry_of asha_end asha ]};
     disk := {| csv := Some [asha]; writable := false |} |}.
Definition allow_writes (app : App) : App :=
  {| active := active app;
     disk := {| csv := csv (disk app); writable := true |} |}.
Definition one_second : Z := Datetime.US_PER_SECOND.

(** Bala's booking of seat 5, made with Asha's and cached with it, and a
    world that refuses the file once one of the two seats has left the
    cache. *)
Definition bala : row := new_booking t0 5 "Bala" "8888888888" 1 "10:10".
Definition app_two : App :=
  {| active := <[ 5 := entry_of asha_end bala ]> {[ 3 := entry_of asha_end asha ]};
     disk := {| csv := Some [asha; bala]; writable := true |} |}.
Definition refuse_after_first (app : App) : App :=
  if bool_decide (size (active app) < 2)%nat
  then {| active := active app;
          disk := {| csv := csv (disk app); writable := false |} |}
  else app.

(** The booking form filled in with a duration of zero, and of minus five. *)
Definition form_zero : entries :=
  {| Name := "Asha"; Mobile := "9999999999"; Duration := "0"; Entry_Time := "10:10" |}.
Definition form_negative : entries :=
  {| Name := "Asha"; Mobile := "9999999999"; Duration := "-5"; Entry_Time := "10:10" |}.
Definition form_blank_name : entries :=
  {| Name := "  "; Mobile := "9999999999"; Duration := "30"; Entry_Time := "10:10" |}.

(** Seat 7 booked at [t0] for ten thousand million minutes, then seat 2
    for one minute. *)
Definition fs_long : FS :=
  {| csv := Some [new_booking t0 7 "Asha" "9999999999" 10000000000 "10:10"];
     writable := true |}.
Definition fs_long_2 : FS :=
  {| csv := Some [new_booking t0 7 "Asha" "9999999999" 10000000000 "10:10";
                  new_booking t0 2 "Ravi" "8888888888" 1 "10:10"];
     writable := true |}.

(** ** More of the vocabulary: the resolver's answer as a fold *)

(** What a row adds to the answer of the resolver when the loop gets
    past it. *)
Definition insert_reported (now : Datetime.datetime) (a : gmap Z entry) (r : row)
    : gmap Z entry :=
  match reported now r with
  | Ok (Some (k, v)) => <[k := v]> a
  | _ => a
  end.

(** A row with a seat number and an end time, whatever its status. *)
Definition row_well_formed (r : row) : Prop :=
  is_Ok (Py.int (seat_id r)) /\ is_Ok (end_time r).

(** ** Sequences of calls of the CSV handlers *)

Inductive store_op : Type :=
| Ensure_csv
| Add_booking (now : Datetime.datetime) (seat : Z) (name_ mobile_ : string)
              (duration_ : Z) (entry_time_ : string)
| Update_booking_status (seat : Z) (status_ : string).

Definition run_op (op : store_op) : IO unit :=
  match op with
  | Ensure_csv => ensure_csv
  | Add_booking now seat name_ mobile_ duration_ entry_time_ =>
      add_booking now seat name_ mobile_ duration_ entry_time_
  | Update_booking_status seat status_ => update_booking_status seat status_
  end.

(** The store after the calls, made one after the other, whether they
    completed or raised. *)
Definition run_ops (ops : list store_op) (fs : FS) : FS :=
  foldl (fun fs op => snd (run_op op fs)) fs ops.

(** A booking made at a reading of the wall clock whose end is a
    [datetime]. *)
Definition in_range_op (op : store_op) : Prop :=
  match op with
  | Add_booking now _ _ _ duration_ _ =>
      Datetime.wall_clock now /\ 0 <= booking_end now duration_ < Datetime.MAX
  | _ => True
  end.

(** What every call of a handler keeps: integer seat ids and one record
    per seat. *)
Definition store_inv (fs : FS) : Prop :=
  seats_readable (records fs) /\ one_record_per_seat (records fs).

(** ** The cache and the sweeper *)

Definition entry_end (v : entry) : Datetime.datetime :=
  let '(end_, _, _, _) := v in end_.

Definition entry_name (v : entry) : string :=
  let '(_, name_, _, _) := v in name_.

(** The cached entries a pass of the sweeper at [now] takes as over. *)
Definition expired (now : Datetime.datetime) (items : list (Z * entry))
    : list (Z * entry) :=
  filter (fun item => entry_end (snd item) <= now) items.

(** [r] is a record of a seat whose cached entry is over at [now]. *)
Definition seat_expired (now : Datetime.datetime) (a : gmap Z entry) (r : row) : Prop :=
  match Py.int (seat_id r) with
  | Ok k =>
      match a !! k with
      | Some v => entry_end v <= now
      | None => False
      end
  | Raise _ => False
  end.

#[global] Instance seat_expired_dec now a r : Decision (seat_expired now a r).
Proof.
  unfold seat_expired. destruct (Py.int (seat_id r)); [|apply _].
  destruct (a !! a0); apply _.
Defined.

(** ** The seat grid and the search box *)

Definition NUM_SEATS : Z := 50.
Definition ROWS : Z := 5.
Definition COLS : Z := 10.

(** The keys of [self.buttons], in the order [create_ui] makes the
    buttons: [sid = r * COLS + c + 1] for [r] in [range(ROWS)] and [c] in
    [range(COLS)]; the numbers of rows and columns are parameters. *)
Definition button_ids (rows cols : Z) : list Z :=
  r ← seqZ 0 rows; c ← seqZ 0 cols; [r * cols + c + 1].

(** What [search] puts in the result label, or the error box. The text
    of the label is left out; the answer carries the booking it is made
    from. *)
Inductive search_answer : Type :=
| Search_error
| Seat_is_occupied (sid : Z) (booking : entry)
| Seat_is_free (sid : Z).

(** The [try] block of [search]. *)
Definition parse_seat (text : string) : result Z :=
  sid ← Py.int text;
  if (sid <? 1) || (NUM_SEATS <? sid) then Raise ValueError else Ok sid.

(** [search_by_seat.search], the handler of "Search". *)
Definition search (text : string) (now : Datetime.datetime) : IO search_answer :=
  match parse_seat text with
  | Raise _ => mret Search_error
  | Ok sid =>
      a ← read_active_bookings now;
      mret (match a !! sid with
            | Some booking => Seat_is_occupied sid booking
            | None => Seat_is_free sid
            end)
  end.

(** ** More sample stores *)

Definition fs_absent : FS := {| csv := None; writable := true |}.

Definition form_ravi : entries :=
  {| Name := " Ravi "; Mobile := "8888888888"; Duration := " 45"; Entry_Time := "10:10" |}.

(** Ravi's booking of seat 3, written after Asha's without removing it,
    as a hand-edited file can have it. *)
Definition ravi : row := new_booking (t0 + half_minute) 3 "Ravi" "8888888888" 45 "10:10".
Definition fs_two_records : FS := {| csv := Some [asha; ravi]; writable := true |}.

(** A Free row whose other fields are not what the program writes. *)
Definition scribble : row :=
  {| seat_id := "seven"; name := ""; mobile := ""; duration := "soon";
     entry_time := ""; start_time := "yesterday"; status := "Free" |}.
Definition fs_scribble : FS := {| csv := Some [scribble; asha]; writable := true |}.

Definition calls_sample : list store_op :=
  [Ensure_csv;
   Add_booking t0 3 "Asha" "9999999999" 1 "10:10";
   Add_booking (t0 + half_minute) 3 "Ravi" "8888888888" 45 "10:10";
   Update_booking_status 3 "Free";
   Add_booking (t0 + half_minute) 7 "Dev" "7777777777" (-5) "10:10"].

Example int_examples :
  Py.int " 1_000 " = Ok 1000 /\ Py.int "-07" = Ok (-7) /\ Py.int "+5" = Ok 5 /\
  Py.int "" = Raise ValueError /\ Py.int "4 5" = Raise ValueError /\
  Py.int "1__0" = Raise ValueError /\ Py.int "_1" = Raise ValueError /\
  Py.int "ten" = Raise ValueError /\ Py.int "- 5" = Raise ValueError /\
  Py.int (String (ascii_of_nat 160) "5") = Ok 5 /\
  Py.int (String (ascii_of_nat 28) "5") = Raise ValueError /\
  Py.strip (String (ascii_of_nat 28) "5") = "5"%string /\
  Py.str (-50) = "-50"%string /\ Py.str 0 = "0"%string /\
  Py.strip "  a b  " = "a b"%string.
Proof. repeat split; reflexivity. Qed.

(* 2026-11-04 10:10:00 is day 739924 (ordinal), 36600 s into the day *)
Example strftime_examples :
  Datetime.strptime "2026-11-04 10:10:00" = Ok 63929383800000000 /\
  Datetime.strftime 63929383800123456 = "2026-11-04 10:10:00"%string /\
  Datetime.strptime "2026-2-29 10:10:00" = Raise ValueError /\
  Datetime.strptime "2024-2-29  1:2:3" = Ok (Datetime.of_fields 2024 2 29 1 2 3) /\
  Datetime.strptime "2026-11-04 10:10:60" = Raise ValueError /\
  Datetime.strptime "2026-11-04 10:10:000" = Raise ValueError /\
  Datetime.strptime "2026-13-04 10:10:00" = Raise ValueError /\
  Datetime.strptime "2024-02- 5 01:02:03" = Ok (Datetime.of_fields 2024 2 5 1 2 3) /\
  Datetime.strptime "0000-01-01 00:00:00" = Raise ValueError /\
  Datetime.strftime 0 = "0001-01-01 00:00:00"%string /\
  Datetime.strftime (Datetime.MAX - 1) = "9999-12-31 23:59:59"%string.
Proof. repeat split; vm_compute; reflexivity. Qed.

(** ** Facts about the builtins *)

Section PyFacts.

Lemma isdigit_not_isspace_int c : Py.isdigit c = true -> Py.isspace_int c = false.
Proof.
  unfold Py.isdigit, Py.isspace_int. cbv zeta. generalize (Py.code c). intros n H.
  apply andb_true_iff in H as [H1 H2]. apply Z.leb_le in H1, H2.
  repeat match goal with
         | |- context [?a <=? ?b] => destruct (Z.leb_spec a b)
         | |- context [?a =? ?b] => destruct (Z.eqb_spec a b)
         end; simpl; try reflexivity; lia.
Qed.

Lemma lstrip_by_alldigits p s :
  (forall c, Py.isdigit c = true -> p c = false) ->
  Py.alldigits s = true -> Py.lstrip_by p s = s.
Proof.
  intros Hp. destruct s as [|c s]; simpl; [reflexivity|].
  intros H. apply andb_true_iff in H as [Hc _]. now rewrite (Hp c Hc).
Qed.

Lemma rstrip_by_alldigits p s :
  (forall c, Py.isdigit c = true -> p c = false) ->
  Py.alldigits s = true -> Py.rstrip_by p s = s.
Proof.
  intros Hp. induction s as [|c s IH]; simpl; [reflexivity|].
  intros H. apply andb_true_iff in H as [Hc Hs].
  rewrite (IH Hs). destruct s; [now rewrite (Hp c Hc) | reflexivity].
Qed.

Lemma digits_of_alldigits s :
  Py.alldigits s = true ->
  Py.digits_of true s = Some s /\ (s <> EmptyString -> Py.digits_of false s = Some s).
Proof.
  induction s as [|c s IH]; simpl; intros H.
  - split; [reflexivity | congruence].
  - apply andb_true_iff in H as [Hc Hs]. rewrite Hc.
    destruct (IH Hs) as [-> _]. split; reflexivity.
Qed.

Lemma alldigits_string_of_uint d :
  Py.alldigits (NilEmpty.string_of_uint d) = true.
Proof. induction d; simpl; auto. Qed.

Lemma string_of_uint_nonempty d :
  d <> Decimal.Nil -> NilEmpty.string_of_uint d <> EmptyString.
Proof. destruct d; simpl; congruence. Qed.

Lemma unsigned_string_of_uint d :
  d <> Decimal.Nil ->
  Py.unsigned (NilEmpty.string_of_uint d) = Some (Z.of_uint d).
Proof.
  intros Hd. unfold Py.unsigned.
  destruct (digits_of_alldigits _ (alldigits_string_of_uint d)) as [_ H].
  rewrite (H (string_of_uint_nonempty d Hd)). simpl.
  now rewrite NilEmpty.usu.
Qed.

(** A string of digits does not start with a sign. *)
Lemma int_of_digits s :
  Py.alldigits s = true -> s <> EmptyString ->
  Py.int s = match Py.unsigned s with Some z => Ok z | None => Raise ValueError end.
Proof.
  intros Hs Hne. unfold Py.int.
  rewrite (lstrip_by_alldigits _ _ isdigit_not_isspace_int Hs).
  rewrite (rstrip_by_alldigits _ _ isdigit_not_isspace_int Hs).
  destruct s as [|c s]; [congruence|].
  simpl in Hs. apply andb_true_iff in Hs as [Hc _].
  destruct c as [[] [] [] [] [] [] [] []]; try discriminate Hc; reflexivity.
Qed.

(** [int(str(z)) == z] *)
Lemma int_str z : Py.int (Py.str z) = Ok z.
Proof.
  destruct z as [|p|p]; [reflexivity| |].
  - unfold Py.str. simpl.
    pose proof (Unsigned.to_uint_nonnil p) as Hp.
    assert (E : NilZero.string_of_uint (Pos.to_uint p)
                = NilEmpty.string_of_uint (Pos.to_uint p))
      by (destruct (Pos.to_uint p); [congruence | reflexivity ..]).
    rewrite E, int_of_digits, unsigned_string_of_uint
      by auto using alldigits_string_of_uint, string_of_uint_nonempty.
    unfold Z.of_uint. now rewrite Unsigned.of_to.
  - unfold Py.str. simpl.
    pose proof (Unsigned.to_uint_nonnil p) as Hp.
    assert (E : NilZero.string_of_uint (Pos.to_uint p)
                = NilEmpty.string_of_uint (Pos.to_uint p))
      by (destruct (Pos.to_uint p); [congruence | reflexivity ..]).
    rewrite E. unfold Py.int.
    change (Py.lstrip_by Py.isspace_int (String "-" ?s)) with (String "-" s).
    assert (Hr : forall s, Py.alldigits s = true -> s <> EmptyString ->
                   Py.rstrip_by Py.isspace_int (String "-" s) = String "-" s).
    { intros s Hs Hne. simpl.
      rewrite (rstrip_by_alldigits _ _ isdigit_not_isspace_int Hs).
      destruct s; [congruence | reflexivity]. }
    rewrite Hr by auto using alldigits_string_of_uint, string_of_uint_nonempty.
    rewrite unsigned_string_of_uint by assumption. simpl.
    unfold Z.of_uint. now rewrite Unsigned.of_to.
Qed.

End PyFacts.

Module DatetimeFacts.
Import Datetime.

Lemma days_before_year_decomp n400 n100 n4 n1 :
  0 <= n400 -> 0 <= n100 <= 3 -> 0 <= n4 <= 24 -> 0 <= n1 <= 3 ->
  days_before_year (n400 * 400 + 1 + n100 * 100 + n4 * 4 + n1)
  = 146097 * n400 + 36524 * n100 + 1461 * n4 + 365 * n1.
Proof.
  intros. unfold days_before_year. cbv zeta.
  Z.to_euclidean_division_equations. lia.
Qed.

Lemma is_leap_decomp n400 n100 n4 n1 :
  0 <= n400 -> 0 <= n100 <= 3 -> 0 <= n4 <= 24 -> 0 <= n1 <= 3 ->
  is_leap (n400 * 400 + 1 + n100 * 100 + n4 * 4 + n1)
  = (n1 =? 3) && (negb (n4 =? 24) || (n100 =? 3)).
Proof.
  intros. unfold is_leap.
  destruct (Z.eqb_spec n1 3), (Z.eqb_spec n4 24), (Z.eqb_spec n100 3); simpl;
    repeat match goal with
           | |- context [?a mod ?b =? 0] => destruct (Z.eqb_spec (a mod b) 0)
           end; simpl; try reflexivity;
    exfalso; Z.to_euclidean_division_equations; lia.
Qed.

Local Ltac euclid a b q r :=
  let H := fresh "H" in
  assert (H : a = b * q + r /\ 0 <= r < b)
    by (split; [apply Z.div_mod | apply Z.mod_pos_bound]; lia).

Local Opaque Z.mul.

(** [ord2ymd] yields a date of the calendar, and [ymd2ord] inverts it. *)
Lemma ord2ymd_spec n :
  1 <= n <= MAXORDINAL ->
  let '(y, m, d) := ord2ymd n in
  (1 <= y <= 9999 /\ 1 <= m <= 12 /\ 1 <= d <= days_in_month y m)
  /\ ymd2ord y m d = n.
Proof.
  intros Hn. unfold ord2ymd, MAXORDINAL, DI400Y, DI100Y, DI4Y in *.
  set (a := n - 1).
  set (n400 := a / 146097). set (r400 := a mod 146097).
  set (n100 := r400 / 36524). set (r100 := r400 mod 36524).
  set (n4 := r100 / 1461). set (r4 := r100 mod 1461).
  set (n1 := r4 / 365). set (r1 := r4 mod 365).
  euclid a 146097 n400 r400. euclid r400 36524 n100 r100.
  euclid r100 1461 n4 r4. euclid r4 365 n1 r1.
  assert (Hb : 0 <= n400 <= 24 /\ 0 <= n100 <= 4 /\ 0 <= n4 <= 24 /\ 0 <= n1 <= 4)
    by lia.
  clearbody n400 r400 n100 r100 n4 r4 n1 r1.
  assert (Hmon : exists month,
             month = Z.shiftr (r1 + 50) 5 /\ 32 * month <= r1 + 50 < 32 * month + 32).
  { exists (Z.shiftr (r1 + 50) 5). rewrite Z.shiftr_div_pow2 by lia.
    change (2 ^ 5) with 32. euclid (r1 + 50) 32 ((r1 + 50) / 32) ((r1 + 50) mod 32).
    lia. }
  destruct Hmon as (month & Hm & Hmb). rewrite <- Hm. clear Hm.
  unfold ymd2ord, days_before_month, days_in_month.
  destruct ((n1 =? 4) || (n100 =? 4)) eqn:E.
  - apply orb_true_iff in E. rewrite !Z.eqb_eq in E.
    assert (Hy : exists m100 m4, 0 <= m100 <= 3 /\ 0 <= m4 <= 24 /\
              n400 * 400 + 1 + n100 * 100 + n4 * 4 + n1 - 1
              = n400 * 400 + 1 + m100 * 100 + m4 * 4 + 3 /\
              a + 1 = 146097 * n400 + 36524 * m100 + 1461 * m4 + 365 * 3 + 366 /\
              (m4 <> 24 \/ m100 = 3)).
    { destruct (Z.eq_dec n100 4); [exists 3, 24 | exists n100, n4]; lia. }
    destruct Hy as (m100 & m4 & ? & ? & -> & Ha & Hl).
    rewrite days_before_year_decomp, is_leap_decomp by lia.
    simpl.
    replace (negb (m4 =? 24) || (m100 =? 3)) with true
      by (destruct (Z.eqb_spec m4 24), (Z.eqb_spec m100 3); simpl;
          try reflexivity; lia).
    lia.
  - apply orb_false_iff in E. rewrite !Z.eqb_neq in E.
    set (leapyear := (n1 =? 3) && (negb (n4 =? 24) || (n100 =? 3))).
    assert (Hmm : month = 1 \/ month = 2 \/ month = 3 \/ month = 4 \/ month = 5
                  \/ month = 6 \/ month = 7 \/ month = 8 \/ month = 9
                  \/ month = 10 \/ month = 11 \/ month = 12) by lia.
    destruct leapyear eqn:HL;
      repeat (destruct Hmm as [-> | Hmm]); try subst month;
      simpl;
      match goal with
      | |- context [if ?n <? ?p then _ else _] => destruct (Z.ltb_spec n p)
      end;
      rewrite ?days_before_year_decomp, ?is_leap_decomp by lia;
      fold leapyear; rewrite ?HL; simpl; lia.
Qed.

Local Transparent Z.mul.

Lemma days_in_month_le_31 y m : 1 <= m <= 12 -> days_in_month y m <= 31.
Proof.
  intros H. unfold days_in_month.
  assert (Hmm : m = 1 \/ m = 2 \/ m = 3 \/ m = 4 \/ m = 5 \/ m = 6 \/ m = 7
                \/ m = 8 \/ m = 9 \/ m = 10 \/ m = 11 \/ m = 12) by lia.
  repeat (destruct Hmm as [-> | Hmm]); try subst m;
    destruct (is_leap y); simpl; lia.
Qed.

End DatetimeFacts.

Module StrptimeFacts.
Import Datetime DatetimeFacts.

Local Ltac digit_cases a :=
  let H := fresh "H" in
  assert (H : a = 0 \/ a = 1 \/ a = 2 \/ a = 3 \/ a = 4 \/ a = 5 \/ a = 6
              \/ a = 7 \/ a = 8 \/ a = 9) by lia;
  repeat (destruct H as [-> | H]); try subst a.

Lemma digit_val_digit a : 0 <= a <= 9 -> digit_val (digit a) = Some a.
Proof. intros Ha. digit_cases a; reflexivity. Qed.

Lemma isspace_digit a : 0 <= a <= 9 -> Py.isspace (digit a) = false.
Proof. intros Ha. digit_cases a; reflexivity. Qed.

Section Matching.
Context {T : Type}.
Implicit Types (k : Z -> string -> option T) (r : string).

Lemma cls1_digit lo hi a r k :
  0 <= a <= 9 ->
  cls1 lo hi (String (digit a) r) k
  = if (lo <=? a) && (a <=? hi) then k a r else None.
Proof. intros Ha. unfold cls1. now rewrite digit_val_digit. Qed.

Lemma cls2_pad2 lo1 hi1 lo2 hi2 n r k :
  0 <= n <= 99 ->
  cls2 lo1 hi1 lo2 hi2 (pad2 n r) k
  = if (lo1 <=? n / 10) && (n / 10 <=? hi1) && (lo2 <=? n mod 10) && (n mod 10 <=? hi2)
    then k n r else None.
Proof.
  intros Hn. unfold cls2, pad2.
  assert (0 <= n / 10 <= 9 /\ 0 <= n mod 10 <= 9 /\ 10 * (n / 10) + n mod 10 = n)
    as (H1 & H2 & H3) by (Z.to_euclidean_division_equations; lia).
  rewrite cls1_digit by assumption.
  destruct ((lo1 <=? n / 10) && (n / 10 <=? hi1)); [|reflexivity].
  rewrite cls1_digit by assumption. rewrite H3. simpl.
  now destruct (lo2 <=? n mod 10).
Qed.

Lemma re_Y_pad4 y r k : 0 <= y <= 9999 -> re_Y (pad4 y r) k = k y r.
Proof.
  intros Hy. unfold re_Y, pad4.
  assert (E : String (digit (y / 1000)) (String (digit (y / 100 mod 10)) (pad2 (y mod 100) r))
              = pad2 (y / 100) (pad2 (y mod 100) r)).
  { replace (y / 1000) with (y / 100 / 10)
      by (Z.to_euclidean_division_equations; lia).
    reflexivity. }
  rewrite E, cls2_pad2 by (Z.to_euclidean_division_equations; lia).
  rewrite cls2_pad2 by (Z.to_euclidean_division_equations; lia).
  assert (0 <= y / 100 / 10 <= 9 /\ 0 <= y / 100 mod 10 <= 9
          /\ 0 <= y mod 100 / 10 <= 9 /\ 0 <= y mod 100 mod 10 <= 9
          /\ 100 * (y / 100) + y mod 100 = y)
    as (H1 & H2 & H3 & H4 & H5) by (Z.to_euclidean_division_equations; lia).
  rewrite H5.
  repeat match goal with
         | |- context [?a <=? ?b] => destruct (Z.leb_spec a b); try lia
         end.
  reflexivity.
Qed.

(** A two-digit field in its range is matched by a two-digit
    alternative as soon as the rest of the pattern matches after it. *)
Local Ltac two_digit_field n Hk :=
  rewrite !cls2_pad2 by lia;
  assert (0 <= n / 10 <= 9 /\ 0 <= n mod 10 <= 9 /\ 10 * (n / 10) + n mod 10 = n)
    as (H1 & H2 & H3) by (Z.to_euclidean_division_equations; lia);
  revert H1 H2 H3; generalize (n / 10) (n mod 10); intros a b H1 H2 H3;
  repeat match goal with
         | |- context [?u <=? ?v] => destruct (Z.leb_spec u v); simpl
         end;
  rewrite ?Hk; simpl; try reflexivity; lia.

Lemma re_m_pad2 n r k x :
  1 <= n <= 12 -> k n r = Some x -> re_m (pad2 n r) k = Some x.
Proof. intros Hn Hk. unfold re_m, alt. two_digit_field n Hk. Qed.

Lemma re_d_pad2 n r k x :
  1 <= n <= 31 -> k n r = Some x -> re_d (pad2 n r) k = Some x.
Proof. intros Hn Hk. unfold re_d, alt. two_digit_field n Hk. Qed.

Lemma re_H_pad2 n r k x :
  0 <= n <= 23 -> k n r = Some x -> re_H (pad2 n r) k = Some x.
Proof. intros Hn Hk. unfold re_H, alt. two_digit_field n Hk. Qed.

Lemma re_M_pad2 n r k x :
  0 <= n <= 59 -> k n r = Some x -> re_M (pad2 n r) k = Some x.
Proof. intros Hn Hk. unfold re_M, alt. two_digit_field n Hk. Qed.

Lemma re_S_pad2 n r k x :
  0 <= n <= 59 -> k n r = Some x -> re_S (pad2 n r) k = Some x.
Proof. intros Hn Hk. unfold re_S, alt. two_digit_field n Hk. Qed.

Lemma spaces_pad2 n r (k : string -> option T) :
  0 <= n <= 99 -> spaces (String " " (pad2 n r)) k = k (pad2 n r).
Proof.
  intros Hn. unfold spaces. change (Py.isspace " ") with true. cbv iota.
  unfold pad2, spaces0. rewrite isspace_digit; [reflexivity|].
  Z.to_euclidean_division_equations; lia.
Qed.

Lemma lit_same c r (k : string -> option T) : lit c (String c r) k = k r.
Proof. unfold lit. now rewrite Ascii.eqb_refl. Qed.

End Matching.

(** What [strftime] prints, [strptime] reads back, less the microseconds. *)
Lemma strptime_strftime t :
  0 <= t < MAX -> strptime (strftime t) = Ok (whole_seconds t).
Proof.
  unfold MAX, MAXORDINAL, US_PER_DAY, whole_seconds, strftime, US_PER_SECOND.
  intros Ht.
  set (secs := t / 1000000).
  assert (Hsecs : t = 1000000 * secs + t mod 1000000 /\ 0 <= t mod 1000000 < 1000000
                  /\ 0 <= secs < 3652059 * 86400)
    by (subst secs; Z.to_euclidean_division_equations; lia).
  clearbody secs.
  set (days := secs / 86400). set (sod := secs mod 86400).
  assert (Hdays : secs = 86400 * days + sod /\ 0 <= sod < 86400 /\ 0 <= days < 3652059)
    by (subst days sod; Z.to_euclidean_division_equations; lia).
  clearbody days sod.
  pose proof (ord2ymd_spec (days + 1)) as Hymd.
  destruct (ord2ymd (days + 1)) as [[y m] d].
  destruct Hymd as [(Hy & Hm & Hd) Hord]; [unfold MAXORDINAL; lia|].
  pose proof (days_in_month_le_31 y m Hm) as Hd31.
  assert (Hh : 0 <= sod / 3600 <= 23 /\ 0 <= sod / 60 mod 60 <= 59 /\ 0 <= sod mod 60 <= 59
               /\ sod = (sod / 3600 * 60 + sod / 60 mod 60) * 60 + sod mod 60)
    by (Z.to_euclidean_division_equations; lia).
  revert Hh. generalize (sod / 3600) (sod / 60 mod 60) (sod mod 60).
  intros hh mi ss (Hhh & Hmi & Hss & Hsod).
  unfold strptime.
  assert (E : regex_match
                (pad4 y (String "-" (pad2 m (String "-" (pad2 d (String " "
                   (pad2 hh (String ":" (pad2 mi (String ":" (pad2 ss "")))))))))))
              = Some (y, m, d, hh, mi, ss, EmptyString)).
  { unfold regex_match.
    rewrite re_Y_pad4, lit_same by lia.
    apply re_m_pad2; [lia|]. rewrite lit_same.
    apply re_d_pad2; [lia|]. rewrite spaces_pad2 by lia.
    apply re_H_pad2; [lia|]. rewrite lit_same.
    apply re_M_pad2; [lia|]. rewrite lit_same.
    apply re_S_pad2; [lia|]. reflexivity. }
  rewrite E.
  assert (C : check_fields y m d hh mi ss = true).
  { unfold check_fields, MINYEAR, MAXYEAR.
    repeat (apply andb_true_iff; split); apply Z.leb_le; lia. }
  rewrite C. f_equal. unfold of_fields, US_PER_MINUTE, US_PER_SECOND. lia.
Qed.

Lemma whole_seconds_bounds t :
  whole_seconds t <= t < whole_seconds t + US_PER_SECOND.
Proof.
  unfold whole_seconds, US_PER_SECOND. Z.to_euclidean_division_equations; lia.
Qed.

End StrptimeFacts.

(** ** The CSV handlers, equation by equation *)

Section StoreFacts.

Lemma int_raises s e : Py.int s = Raise e -> e = ValueError.
Proof. unfold Py.int. intros H. repeat case_match; congruence. Qed.

Lemma is_Ok_Ok {A} (a : A) : is_Ok (Ok a).
Proof. now exists a. Qed.

Lemma not_is_Ok_Raise {A} e : ~ is_Ok (@Raise A e).
Proof. intros [a H]. discriminate H. Qed.

Lemma read_active_bookings_eq now fs :
  read_active_bookings now fs
  = (match csv fs with
     | Some rows => for_each (active_body now) ∅ rows
     | None => Ok ∅
     end, fs).
Proof. destruct fs as [[rows|] w]; reflexivity. Qed.

Lemma ensure_csv_eq fs :
  ensure_csv fs
  = match csv fs with
    | Some _ => (Ok tt, fs)
    | None => write_rows [] fs
    end.
Proof. destruct fs as [[rows|] w]; reflexivity. Qed.

(** The filtering loop of [add_booking]. *)
Lemma keep_loop seat acc rs :
  for_each (fun rows r =>
      sid ← Py.int (seat_id r);
      Ok (if bool_decide (sid ≠ seat) then rows ++ [r] else rows)) acc rs
  = if decide (seats_readable rs)
    then Ok (acc ++ filter (fun r => ~ has_seat seat r) rs)
    else Raise ValueError.
Proof.
  revert acc. induction rs as [|r rs IH]; intros acc.
  - cbn [for_each]. rewrite decide_True by constructor. now rewrite app_nil_r.
  - cbn [for_each]. unfold mbind at 1, result_bind.
    destruct (Py.int (seat_id r)) as [sid|e] eqn:E.
    + unfold mbind, result_bind. rewrite IH.
      destruct (decide (seats_readable rs)) as [Hrs|Hrs].
      * rewrite decide_True by (constructor; [rewrite E; apply is_Ok_Ok | exact Hrs]).
        f_equal. case_bool_decide as Hs.
        -- rewrite filter_cons_True by (unfold has_seat; congruence).
           now rewrite <- app_assoc.
        -- rewrite filter_cons_False; [reflexivity|].
           unfold has_seat. intros H. apply H. congruence.
      * rewrite decide_False; [reflexivity|].
        intros H. apply Hrs. now inversion H.
    + rewrite (int_raises _ _ E). rewrite decide_False; [reflexivity|].
      intros H. inversion H as [|? ? Hr]. rewrite E in Hr.
      now apply not_is_Ok_Raise in Hr.
Qed.

(** The rewriting loop of [update_booking_status]. *)
Lemma mark_loop seat status_ acc rs :
  for_each (fun rows r =>
      sid ← Py.int (seat_id r);
      Ok (rows ++ [if bool_decide (sid = seat)
                   then set_row_status r status_ else r])) acc rs
  = if decide (seats_readable rs)
    then Ok (acc ++ (mark seat status_ <$> rs))
    else Raise ValueError.
Proof.
  revert acc. induction rs as [|r rs IH]; intros acc.
  - cbn [for_each]. rewrite decide_True by constructor. now rewrite app_nil_r.
  - cbn [for_each]. unfold mbind at 1, result_bind.
    destruct (Py.int (seat_id r)) as [sid|e] eqn:E.
    + unfold mbind, result_bind. rewrite IH.
      destruct (decide (seats_readable rs)) as [Hrs|Hrs].
      * rewrite decide_True by (constructor; [rewrite E; apply is_Ok_Ok | exact Hrs]).
        f_equal. rewrite fmap_cons, <- app_assoc. simpl. do 2 f_equal.
        unfold mark.
        case_bool_decide; [rewrite decide_True by (unfold has_seat; congruence)
                          | rewrite decide_False by (unfold has_seat; congruence)];
          reflexivity.
      * rewrite decide_False; [reflexivity|].
        intros H. apply Hrs. now inversion H.
    + rewrite (int_raises _ _ E). rewrite decide_False; [reflexivity|].
      intros H. inversion H as [|? ? Hr]. rewrite E in Hr.
      now apply not_is_Ok_Raise in Hr.
Qed.

Lemma add_booking_eq now seat name_ mobile_ duration_ entry_time_ fs :
  add_booking now seat name_ mobile_ duration_ entry_time_ fs
  = if decide (seats_readable (records fs))
    then write_rows (filter (fun r => ~ has_seat seat r) (records fs)
                     ++ [new_booking now seat name_ mobile_ duration_ entry_time_]) fs
    else (Raise ValueError, fs).
Proof.
  destruct fs as [[rows|] w]; unfold records; cbn [csv].
  - unfold add_booking, mbind, IO_bind, exists_, read_rows, lift. cbn [csv].
    rewrite keep_loop. destruct (decide (seats_readable rows)); reflexivity.
  - rewrite decide_True by constructor. reflexivity.
Qed.

Lemma update_booking_status_eq seat status_ fs :
  update_booking_status seat status_ fs
  = if decide (seats_readable (records fs))
    then write_rows ((mark seat status_ <$> records fs)) fs
    else (Raise ValueError, fs).
Proof.
  destruct fs as [[rows|] w]; unfold records; cbn [csv].
  - unfold update_booking_status, mbind, IO_bind, exists_, read_rows, lift. cbn [csv].
    rewrite mark_loop. destruct (decide (seats_readable rows)); reflexivity.
  - rewrite decide_True by constructor. reflexivity.
Qed.

Lemma write_rows_eq rows fs :
  write_rows rows fs
  = if writable fs then (Ok tt, {| csv := Some rows; writable := true |})
    else (Raise OSError, fs).
Proof. reflexivity. Qed.

(** When the handlers complete. *)
Lemma add_booking_completes now seat name_ mobile_ duration_ entry_time_ fs :
  writable fs = true -> seats_readable (records fs) ->
  add_booking now seat name_ mobile_ duration_ entry_time_ fs
  = (Ok tt, {| csv := Some (filter (fun r => ~ has_seat seat r) (records fs)
                            ++ [new_booking now seat name_ mobile_ duration_ entry_time_]);
               writable := true |}).
Proof.
  intros Hw Hr. rewrite add_booking_eq, write_rows_eq, Hw.
  now rewrite decide_True by assumption.
Qed.

Lemma add_booking_completed now seat name_ mobile_ duration_ entry_time_ fs fs' :
  add_booking now seat name_ mobile_ duration_ entry_time_ fs = (Ok tt, fs') ->
  writable fs = true /\ seats_readable (records fs)
  /\ fs' = {| csv := Some (filter (fun r => ~ has_seat seat r) (records fs)
                           ++ [new_booking now seat name_ mobile_ duration_ entry_time_]);
              writable := true |}.
Proof.
  rewrite add_booking_eq, write_rows_eq.
  destruct (decide _); [|discriminate]. destruct (writable fs); [|discriminate].
  intros [= <-]. auto.
Qed.

Lemma update_booking_status_completes seat status_ fs :
  writable fs = true -> seats_readable (records fs) ->
  update_booking_status seat status_ fs
  = (Ok tt, {| csv := Some ((mark seat status_ <$> records fs)); writable := true |}).
Proof.
  intros Hw Hr. rewrite update_booking_status_eq, write_rows_eq, Hw.
  now rewrite decide_True by assumption.
Qed.

Lemma update_booking_status_completed seat status_ fs fs' :
  update_booking_status seat status_ fs = (Ok tt, fs') ->
  writable fs = true /\ seats_readable (records fs)
  /\ fs' = {| csv := Some ((mark seat status_ <$> records fs)); writable := true |}.
Proof.
  rewrite update_booking_status_eq, write_rows_eq.
  destruct (decide _); [|discriminate]. destruct (writable fs); [|discriminate].
  intros [= <-]. auto.
Qed.

Lemma seat_id_mark seat status_ r : seat_id (mark seat status_ r) = seat_id r.
Proof. unfold mark. now destruct (decide _). Qed.

Lemma has_seat_mark s seat status_ r : has_seat s (mark seat status_ r) <-> has_seat s r.
Proof. unfold has_seat. now rewrite seat_id_mark. Qed.

Lemma seats_readable_mark seat status_ rows :
  seats_readable rows -> seats_readable ((mark seat status_ <$> rows)).
Proof.
  unfold seats_readable. intros H. rewrite Forall_fmap.
  eapply Forall_impl; [exact H|]. intros r. simpl. now rewrite seat_id_mark.
Qed.

Lemma mark_mark seat status_ r :
  mark seat status_ (mark seat status_ r) = mark seat status_ r.
Proof.
  unfold mark at 2 3. destruct (decide (has_seat seat r)) as [H|H].
  - unfold mark. now rewrite decide_True by exact H.
  - unfold mark. now rewrite decide_False by exact H.
Qed.

End StoreFacts.

(** ** The resolver, row by row *)

Section ResolverFacts.
Variable now : Datetime.datetime.

Lemma active_body_reported acc r :
  active_body now acc r
  = match reported now r with
    | Ok None => Ok acc
    | Ok (Some (k, v)) => Ok (<[k := v]> acc)
    | Raise e => Raise e
    end.
Proof.
  unfold active_body, reported, entry_of.
  destruct (String.eqb (status r) "Occupied"); [|reflexivity].
  destruct (end_time r) as [e|]; [|reflexivity]. cbn.
  destruct (now <? e); [|reflexivity].
  destruct (Py.int (seat_id r)); reflexivity.
Qed.

Lemma reported_Some r k v :
  reported now r = Ok (Some (k, v))
  <-> status r = "Occupied"%string
      /\ exists e, end_time r = Ok e /\ now < e /\ has_seat k r /\ v = entry_of e r.
Proof.
  unfold reported, has_seat.
  destruct (String.eqb_spec (status r) "Occupied") as [Hs|Hs].
  - destruct (end_time r) as [e|x]; cbn.
    + destruct (Z.ltb_spec now e) as [Hlt|Hge].
      * destruct (Py.int (seat_id r)) as [sid|x]; cbn.
        -- split.
           ++ intros [= <- <-]. eauto 10.
           ++ intros (_ & e' & [= <-] & _ & [= <-] & ->). reflexivity.
        -- split; [discriminate|]. intros (_ & e' & _ & _ & H & _). discriminate H.
      * split; [discriminate|]. intros (_ & e' & [= <-] & H & _). lia.
    + split; [discriminate|]. intros (_ & e' & H & _). discriminate H.
  - split; [discriminate|]. intros (H & _). contradiction.
Qed.

Lemma reported_None r :
  reported now r = Ok None
  <-> status r <> "Occupied"%string \/ exists e, end_time r = Ok e /\ e <= now.
Proof.
  unfold reported.
  destruct (String.eqb_spec (status r) "Occupied") as [Hs|Hs].
  - destruct (end_time r) as [e|x]; cbn.
    + destruct (Z.ltb_spec now e) as [Hlt|Hge].
      * destruct (Py.int (seat_id r)) as [sid|x]; cbn;
          (split; [discriminate|]; intros [H|(e' & [= <-] & H)]; [contradiction | lia]).
      * split; [|reflexivity]. intros _. right. eauto.
    + split; [discriminate|]. intros [H|(e' & H & _)]; [contradiction | discriminate H].
  - split; [auto | reflexivity].
Qed.

Lemma reported_readable r : row_readable r -> is_Ok (reported now r).
Proof.
  unfold row_readable, reported.
  destruct (String.eqb_spec (status r) "Occupied") as [Hs|Hs]; [|intros; apply is_Ok_Ok].
  intros H. destruct (H Hs) as [[e ->] [sid ->]]. cbn.
  destruct (now <? e); apply is_Ok_Ok.
Qed.

(** The loop completes exactly when no row makes it raise. *)
Lemma for_each_active_is_Ok acc rows :
  is_Ok (for_each (active_body now) acc rows)
  <-> Forall (fun r => is_Ok (reported now r)) rows.
Proof.
  revert acc. induction rows as [|r rows IH]; intros acc; cbn [for_each].
  - split; [constructor | intros; apply is_Ok_Ok].
  - rewrite Forall_cons, active_body_reported.
    destruct (reported now r) as [[[k v]|]|e]; cbn.
    + rewrite IH. split; [intros; split; [apply is_Ok_Ok | assumption] | tauto].
    + rewrite IH. split; [intros; split; [apply is_Ok_Ok | assumption] | tauto].
    + split; [intros H; now apply not_is_Ok_Raise in H
             | intros [H _]; now apply not_is_Ok_Raise in H].
Qed.

(** Every entry of the result was there before or comes from a row. *)
Lemma for_each_active_sound acc rows m k v :
  for_each (active_body now) acc rows = Ok m ->
  m !! k = Some v ->
  acc !! k = Some v \/ exists r, r ∈ rows /\ reported now r = Ok (Some (k, v)).
Proof.
  revert acc. induction rows as [|r rows IH]; intros acc; cbn [for_each].
  - intros [= ->]. auto.
  - rewrite active_body_reported.
    destruct (reported now r) as [[[k' v']|]|e] eqn:E; cbn; try discriminate.
    + intros Hm Hk. destruct (IH _ Hm Hk) as [Ha|(r' & Hin & Hr')].
      * destruct (decide (k' = k)) as [->|Hne].
        -- rewrite lookup_insert_eq in Ha. injection Ha as ->.
           right. exists r. split; [left | exact E].
        -- rewrite lookup_insert_ne in Ha by exact Hne. auto.
      * right. exists r'. split; [now right | exact Hr'].
    + intros Hm Hk. destruct (IH _ Hm Hk) as [Ha|(r' & Hin & Hr')]; [auto|].
      right. exists r'. split; [now right | exact Hr'].
Qed.

(** Every key that was there before or that a row stores is in the result. *)
Lemma for_each_active_complete acc rows m k :
  for_each (active_body now) acc rows = Ok m ->
  is_Some (acc !! k) \/ (exists r v, r ∈ rows /\ reported now r = Ok (Some (k, v))) ->
  is_Some (m !! k).
Proof.
  revert acc. induction rows as [|r rows IH]; intros acc; cbn [for_each].
  - intros [= ->] [H|(r & v & Hin & _)]; [exact H | now apply not_elem_of_nil in Hin].
  - rewrite active_body_reported.
    destruct (reported now r) as [[[k' v']|]|e] eqn:E; cbn; try discriminate.
    + intros Hm H. apply (IH _ Hm).
      destruct H as [H|(r' & v & Hin & Hr')].
      * left. destruct (decide (k' = k)) as [->|Hne];
          [rewrite lookup_insert_eq; eauto | now rewrite lookup_insert_ne].
      * apply elem_of_cons in Hin as [->|Hin].
        -- left. rewrite E in Hr'. injection Hr' as -> ->.
           rewrite lookup_insert_eq. eauto.
        -- right. eauto.
    + intros Hm H. apply (IH _ Hm).
      destruct H as [H|(r' & v & Hin & Hr')]; [auto|].
      apply elem_of_cons in Hin as [->|Hin]; [congruence | right; eauto].
Qed.

End ResolverFacts.

Section ResolverOnStore.

Lemma has_seat_functional k k' r : has_seat k r -> has_seat k' r -> k = k'.
Proof. unfold has_seat. congruence. Qed.

Lemma one_record_unique rows k r r' :
  one_record_per_seat rows ->
  r ∈ rows -> r' ∈ rows -> has_seat k r -> has_seat k r' -> r = r'.
Proof.
  intros Hone Hr Hr' Hk Hk'. specialize (Hone k).
  assert (H1 : r ∈ filter (has_seat k) rows) by now apply list_elem_of_filter.
  assert (H2 : r' ∈ filter (has_seat k) rows) by now apply list_elem_of_filter.
  destruct (filter (has_seat k) rows) as [|x [|y l]]; simpl in Hone.
  - now apply not_elem_of_nil in H1.
  - apply list_elem_of_singleton in H1, H2. congruence.
  - lia.
Qed.

Lemma read_active_bookings_fst now fs :
  fst (read_active_bookings now fs) = for_each (active_body now) ∅ (records fs).
Proof. rewrite read_active_bookings_eq. unfold records. now destruct (csv fs). Qed.

(** On a store with one record per seat, what the resolver holds for a
    seat is what the loop made of that seat's record. *)
Lemma read_active_bookings_lookup now fs m r k :
  fst (read_active_bookings now fs) = Ok m ->
  one_record_per_seat (records fs) ->
  r ∈ records fs -> has_seat k r ->
  exists o, reported now r = Ok o /\ m !! k = snd <$> o.
Proof.
  rewrite read_active_bookings_fst. intros Hm Hone Hr Hk.
  assert (Hok : is_Ok (reported now r)).
  { assert (H : is_Ok (for_each (active_body now) ∅ (records fs)))
      by (rewrite Hm; apply is_Ok_Ok).
    apply for_each_active_is_Ok in H. rewrite Forall_forall in H. now apply H. }
  destruct Hok as [o Ho]. exists o. split; [exact Ho|].
  destruct (m !! k) as [v'|] eqn:Hl.
  - destruct (for_each_active_sound _ _ _ _ _ _ Hm Hl) as [H|(r' & Hr' & Hrep)].
    + now rewrite lookup_empty in H.
    + assert (Hk' : has_seat k r')
        by (apply reported_Some in Hrep as (_ & e & _ & _ & H & _); exact H).
      rewrite <- (one_record_unique _ _ _ _ Hone Hr Hr' Hk Hk') in Hrep.
      rewrite Ho in Hrep. injection Hrep as ->. reflexivity.
  - destruct o as [[k' v]|]; [|reflexivity]. exfalso.
    assert (k' = k) as ->.
    { apply reported_Some in Ho as (_ & e & _ & _ & H & _).
      exact (has_seat_functional _ _ _ H Hk). }
    assert (H : is_Some (m !! k)).
    { apply (for_each_active_complete _ _ _ _ _ Hm). right. eauto. }
    rewrite Hl in H. now apply is_Some_None in H.
Qed.

End ResolverOnStore.

Section ResolverExact.

Lemma read_active_bookings_sound now fs m k v :
  fst (read_active_bookings now fs) = Ok m -> m !! k = Some v ->
  exists r e, r ∈ records fs /\ is_active now r /\ has_seat k r
              /\ end_time r = Ok e /\ v = entry_of e r.
Proof.
  rewrite read_active_bookings_fst. intros Hm Hk.
  destruct (for_each_active_sound _ _ _ _ _ _ Hm Hk) as [H|(r & Hr & Hrep)];
    [now rewrite lookup_empty in H|].
  apply reported_Some in Hrep as (Hs & e & He & Hlt & Hseat & ->).
  exists r, e. unfold is_active. eauto 10.
Qed.

Lemma read_active_bookings_one_record now fs m r k e :
  fst (read_active_bookings now fs) = Ok m ->
  one_record_per_seat (records fs) ->
  r ∈ records fs -> has_seat k r ->
  status r = "Occupied"%string -> end_time r = Ok e ->
  m !! k = if now <? e then Some (entry_of e r) else None.
Proof.
  intros Hm Hone Hr Hk Hs He.
  destruct (read_active_bookings_lookup _ _ _ _ _ Hm Hone Hr Hk) as (o & Ho & ->).
  destruct (Z.ltb_spec now e) as [Hlt|Hge].
  - assert (H : reported now r = Ok (Some (k, entry_of e r)))
      by (apply reported_Some; eauto 10).
    rewrite Ho in H. now injection H as ->.
  - assert (H : reported now r = Ok None) by (apply reported_None; eauto).
    rewrite Ho in H. now injection H as ->.
Qed.

Lemma one_record_per_seat_singleton r : one_record_per_seat [r].
Proof. intros seat. etransitivity; [apply length_filter | reflexivity]. Qed.

(** The end time the loop computes is the start time plus the duration
    in minutes, and it is computed when that is a [datetime]. *)
Lemma end_time_Ok r e :
  end_time r = Ok e
  <-> exists start d,
        Datetime.strptime (start_time r) = Ok start /\ Py.int (duration r) = Ok d
        /\ e = start + d * Datetime.US_PER_MINUTE /\ 0 <= e < Datetime.MAX.
Proof.
  unfold end_time, Datetime.add_minutes.
  destruct (Datetime.strptime (start_time r)) as [start|x]; cbn.
  - destruct (Py.int (duration r)) as [d|x]; cbn.
    + destruct (Z.leb_spec 0 (start + d * Datetime.US_PER_MINUTE)) as [H0|H0],
               (Z.ltb_spec (start + d * Datetime.US_PER_MINUTE) Datetime.MAX) as [H1|H1];
        cbn; (split; [intros [= <-]; try (exists start, d; repeat split; assumption)
                     | intros (start' & d' & [= <-] & [= <-] & -> & Hr);
                       try reflexivity; lia]).
    + split; [discriminate | intros (start' & d' & _ & H & _); discriminate H].
  - split; [discriminate | intros (start' & d' & H & _); discriminate H].
Qed.

Lemma end_time_from_fields r start d :
  Datetime.strptime (start_time r) = Ok start -> Py.int (duration r) = Ok d ->
  0 <= start + d * Datetime.US_PER_MINUTE < Datetime.MAX ->
  end_time r = Ok (start + d * Datetime.US_PER_MINUTE).
Proof. intros Hs Hd Hr. apply end_time_Ok. exists start, d. auto. Qed.

(** Where the resolver returns, the end time of every Occupied record
    was computed. *)
Lemma read_active_bookings_end_time now fs m r start d :
  fst (read_active_bookings now fs) = Ok m ->
  r ∈ records fs -> status r = "Occupied"%string ->
  Datetime.strptime (start_time r) = Ok start -> Py.int (duration r) = Ok d ->
  end_time r = Ok (start + d * Datetime.US_PER_MINUTE).
Proof.
  rewrite read_active_bookings_fst. intros Hm Hr Hs Hstart Hd.
  assert (Hok : is_Ok (reported now r)).
  { assert (H : is_Ok (for_each (active_body now) ∅ (records fs)))
      by (rewrite Hm; apply is_Ok_Ok).
    apply for_each_active_is_Ok in H. rewrite Forall_forall in H. now apply H. }
  unfold reported in Hok. rewrite (proj2 (String.eqb_eq _ _) Hs) in Hok.
  destruct (end_time r) as [e|x] eqn:He; [|now apply not_is_Ok_Raise in Hok].
  apply end_time_Ok in He as (start' & d' & Hstart' & Hd' & -> & _).
  rewrite Hstart in Hstart'. rewrite Hd in Hd'.
  injection Hstart' as <-. injection Hd' as <-. reflexivity.
Qed.

End ResolverExact.

(** ** The occupancy resolver: [read_active_bookings] *)

(** C10. When the store file does not exist, the resolver returns the
    empty mapping, raises nothing and creates nothing; this is the answer
    it gives on a store that holds the header only, and on the store
    [ensure_csv] makes of the missing one. *)
Theorem C10_missing_store_is_empty_store now w :
  let missing := {| csv := None; writable := w |} in
  read_active_bookings now missing = (Ok ∅, missing)
  /\ fst (read_active_bookings now {| csv := Some []; writable := w |}) = Ok ∅
  /\ fst (read_active_bookings now (snd (ensure_csv missing))) = Ok ∅.
Proof. destruct w; repeat split; reflexivity. Qed.



(** C4. For a record that is Occupied, with its end the [start_time]
    plus [duration] minutes, in a store with one record per seat: read at
    [now] equal to that end the resolver has no entry for the record's
    seat, the record is not active; read at any [now] before that end,
    one microsecond before it included, the resolver has for the seat the
    entry of the record with that end, the record is active. *)
Theorem C4_end_time_is_exclusive now fs m r k start d :
  fst (read_active_bookings now fs) = Ok m ->
  one_record_per_seat (records fs) ->
  r ∈ records fs -> Py.int (seat_id r) = Ok k ->
  status r = "Occupied"%string ->
  Datetime.strptime (start_time r) = Ok start ->
  Py.int (duration r) = Ok d ->
  (now = start + d * Datetime.US_PER_MINUTE -> m !! k = None)
  /\ (now < start + d * Datetime.US_PER_MINUTE ->
      m !! k = Some (start + d * Datetime.US_PER_MINUTE,
                     name r, mobile r, entry_time r)).
Proof.
  intros Hm Hone Hr Hk Hs Hstart Hd.
  pose proof (read_active_bookings_end_time _ _ _ _ _ _ Hm Hr Hs Hstart Hd) as He.
  pose proof (read_active_bookings_one_record _ _ _ _ _ _ Hm Hone Hr Hk Hs He)
    as Hlookup.
  split.
  - intros Hnow. rewrite <- Hnow, Z.ltb_irrefl in Hlookup. exact Hlookup.
  - intros Hlt. rewrite (proj2 (Z.ltb_lt _ _) Hlt) in Hlookup. exact Hlookup.
Qed.

Lemma C4_end_time_is_exclusive_witness :
  (∅ : gmap Z entry) !! 3 = None
  /\ ({[ 3 := entry_of asha_end asha ]} : gmap Z entry) !! 3
     = Some (63929383800000000 + 1 * Datetime.US_PER_MINUTE,
             name asha, mobile asha, entry_time asha).
Proof.
  split.
  - destruct (C4_end_time_is_exclusive asha_end fs_asha ∅ asha 3 63929383800000000 1)
      as [Hat _].
    + vm_compute. reflexivity.
    + apply one_record_per_seat_singleton.
    + apply list_elem_of_here.
    + vm_compute. reflexivity.
    + reflexivity.
    + vm_compute. reflexivity.
    + vm_compute. reflexivity.
    + apply Hat. vm_compute. reflexivity.
  - destruct (C4_end_time_is_exclusive (asha_end - 1) fs_asha
                {[ 3 := entry_of asha_end asha ]} asha 3 63929383800000000 1)
      as [_ Hbefore].
    + vm_compute. reflexivity.
    + apply one_record_per_seat_singleton.
    + apply list_elem_of_here.
    + vm_compute. reflexivity.
    + reflexivity.
    + vm_compute. reflexivity.
    + vm_compute. reflexivity.
    + apply Hbefore. vm_compute. reflexivity.
Defined.

(** At its end time to the microsecond the booking is gone. *)
Example asha_at_end_time :
  fst (read_active_bookings (asha_end - 1) fs_asha) = Ok {[ 3 := entry_of asha_end asha ]}
  /\ fst (read_active_bookings asha_end fs_asha) = Ok ∅.
Proof. split; vm_compute; reflexivity. Qed.

(** ** The record store: [add_booking] and [update_booking_status] *)

Section UpsertFacts.
Variables (seat : Z) (new : row).
Hypothesis new_seat : has_seat seat new.

Lemma filter_seat_removed (rows : list row) :
  filter (has_seat seat) (filter (fun r => ~ has_seat seat r) rows) = [].
Proof.
  induction rows as [|r rows IH]; [reflexivity|].
  destruct (decide (has_seat seat r)) as [H|H].
  - rewrite (filter_cons_False (fun r => ~ has_seat seat r)) by tauto. exact IH.
  - rewrite (filter_cons_True (fun r => ~ has_seat seat r)) by exact H.
    now rewrite filter_cons_False by exact H.
Qed.

Lemma filter_seat_other s (rows : list row) :
  s <> seat ->
  filter (has_seat s) (filter (fun r => ~ has_seat seat r) rows)
  = filter (has_seat s) rows.
Proof.
  intros Hs. induction rows as [|r rows IH]; [reflexivity|].
  destruct (decide (has_seat seat r)) as [H|H].
  - rewrite (filter_cons_False (fun r => ~ has_seat seat r)) by tauto.
    rewrite (filter_cons_False (has_seat s)); [exact IH|].
    intros H'. apply Hs. exact (has_seat_functional _ _ _ H' H).
  - rewrite (filter_cons_True (fun r => ~ has_seat seat r)) by exact H.
    rewrite !filter_cons, IH. reflexivity.
Qed.

(** The rows [add_booking] writes hold [new] as the one record of its seat. *)
Lemma upsert_rows (rows : list row) :
  let rows' := filter (fun r => ~ has_seat seat r) rows ++ [new] in
  filter (has_seat seat) rows' = [new]
  /\ (forall s, s <> seat -> filter (has_seat s) rows' = filter (has_seat s) rows)
  /\ (seats_readable rows -> seats_readable rows')
  /\ (one_record_per_seat rows -> one_record_per_seat rows').
Proof.
  cbn zeta.
  assert (H1 : filter (has_seat seat)
                 (filter (fun r => ~ has_seat seat r) rows ++ [new]) = [new]).
  { rewrite filter_app, filter_seat_removed. simpl.
    now rewrite filter_cons_True by exact new_seat. }
  assert (H2 : forall s, s <> seat ->
             filter (has_seat s) (filter (fun r => ~ has_seat seat r) rows ++ [new])
             = filter (has_seat s) rows).
  { intros s Hs. rewrite filter_app, filter_seat_other by exact Hs.
    rewrite (filter_cons_False (has_seat s)).
    - now rewrite filter_nil, app_nil_r.
    - intros H'. apply Hs. exact (has_seat_functional _ _ _ H' new_seat). }
  split; [exact H1|]. split; [exact H2|]. split.
  - unfold seats_readable. intros Hr. apply Forall_app. split.
    + apply Forall_forall. intros r Hin. apply list_elem_of_filter in Hin as [_ Hin].
      rewrite Forall_forall in Hr. now apply Hr.
    + apply Forall_singleton. rewrite new_seat. apply is_Ok_Ok.
  - intros Hone s. destruct (decide (s = seat)) as [->|Hs].
    + now rewrite H1.
    + rewrite H2 by exact Hs. apply Hone.
Qed.

End UpsertFacts.

Lemma has_seat_new_booking now seat name_ mobile_ duration_ entry_time_ :
  has_seat seat (new_booking now seat name_ mobile_ duration_ entry_time_).
Proof. unfold has_seat, new_booking. cbn [seat_id]. apply int_str. Qed.

(** The fields of the row [add_booking] appends: the values of the
    call, the clock reading printed to the second, and Occupied. *)
Lemma new_booking_fields now seat name_ mobile_ duration_ entry_time_ :
  let r := new_booking now seat name_ mobile_ duration_ entry_time_ in
  Py.int (seat_id r) = Ok seat /\ name r = name_ /\ mobile r = mobile_
  /\ Py.int (duration r) = Ok duration_ /\ entry_time r = entry_time_
  /\ start_time r = Datetime.strftime now /\ status r = "Occupied"%string.
Proof.
  cbn zeta. unfold new_booking. cbn [seat_id name mobile duration entry_time start_time status].
  rewrite !int_str. repeat split.
Qed.



Section StatusFacts.
Variables (seat : Z) (status_ : string).

Lemma same_but_status_refl r : same_but_status r r.
Proof. repeat split. Qed.

Lemma same_but_status_mark r : same_but_status r (mark seat status_ r).
Proof. unfold mark. destruct (decide _); repeat split. Qed.

Lemma mark_other r : ~ has_seat seat r -> mark seat status_ r = r.
Proof. intros H. unfold mark. now rewrite decide_False by exact H. Qed.

Lemma mark_status r : has_seat seat r -> status (mark seat status_ r) = status_.
Proof. intros H. unfold mark. now rewrite decide_True by exact H. Qed.

Lemma mark_no_record (rows : list row) :
  (forall r, r ∈ rows -> ~ has_seat seat r) -> mark seat status_ <$> rows = rows.
Proof.
  induction rows as [|r rows IH]; intros H; [reflexivity|].
  rewrite fmap_cons, mark_other by (apply H; left).
  rewrite IH; [reflexivity|]. intros r' Hr'. apply H. now right.
Qed.

(** Calling it again changes nothing more. *)
Lemma update_booking_status_idempotent fs :
  update_booking_status seat status_ (snd (update_booking_status seat status_ fs))
  = update_booking_status seat status_ fs.
Proof.
  rewrite (update_booking_status_eq seat status_ fs), write_rows_eq.
  destruct (decide (seats_readable (records fs))) as [Hr|Hr].
  - destruct (writable fs) eqn:Hw.
    + cbn [snd]. rewrite update_booking_status_completes;
        [| reflexivity | unfold records; cbn [csv]; now apply seats_readable_mark].
      unfold records at 1. cbn [csv]. do 3 f_equal.
      rewrite <- list_fmap_compose. apply list_fmap_ext.
      intros i r _. apply mark_mark.
    + cbn [snd]. rewrite update_booking_status_eq, write_rows_eq, Hw.
      now rewrite decide_True by exact Hr.
  - cbn [snd]. rewrite update_booking_status_eq. now rewrite decide_False by exact Hr.
Qed.

End StatusFacts.

(** C9. A call [update_booking_status(seat, status)] that completes
    leaves every record in its place with all its fields but the status;
    the records of that seat have the status given, the records of the
    other seats are untouched; and when no record is of that seat the
    records are as they were. *)
Theorem C9_update_booking_status_frame seat status_ fs fs' :
  update_booking_status seat status_ fs = (Ok tt, fs') ->
  Forall2 (fun r r' => same_but_status r r'
                       /\ (has_seat seat r -> status r' = status_)
                       /\ (~ has_seat seat r -> r' = r))
          (records fs) (records fs')
  /\ ((forall r, r ∈ records fs -> ~ has_seat seat r) -> records fs' = records fs).
Proof.
  intros H. apply update_booking_status_completed in H as (_ & _ & ->).
  unfold records at 2 4. cbn [csv]. split.
  - apply Forall2_fmap_r, Forall_Forall2_diag, Forall_forall.
    intros r _. split; [apply same_but_status_mark|].
    split; [apply mark_status | apply mark_other].
  - apply mark_no_record.
Qed.

Lemma C9_update_booking_status_frame_witness :
  Forall2 (fun r r' => same_but_status r r'
                       /\ (has_seat 3 r -> status r' = "Free"%string)
                       /\ (~ has_seat 3 r -> r' = r))
          (records fs_asha) (records (snd (update_booking_status 3 "Free" fs_asha)))
  /\ records (snd (update_booking_status 4 "Free" fs_asha)) = records fs_asha.
Proof.
  split.
  - apply (C9_update_booking_status_frame 3 "Free" fs_asha). vm_compute. reflexivity.
  - apply (C9_update_booking_status_frame 4 "Free" fs_asha).
    + vm_compute. reflexivity.
    + intros r Hr. apply list_elem_of_singleton in Hr as ->. vm_compute. discriminate.
Defined.

(** ** A booking and the resolver *)

Section BookingFacts.
Import Datetime StrptimeFacts.

Lemma wall_clock_in_range t : wall_clock t -> 0 <= t < MAX.
Proof. unfold wall_clock. change Y1000 with 31525372800000000. lia. Qed.

Lemma end_time_new_booking now seat name_ mobile_ duration_ entry_time_ :
  wall_clock now -> 0 < duration_ -> booking_end now duration_ < MAX ->
  end_time (new_booking now seat name_ mobile_ duration_ entry_time_)
  = Ok (booking_end now duration_).
Proof.
  intros Hnow Hd Hend. apply wall_clock_in_range in Hnow.
  unfold end_time, new_booking. cbn [start_time duration].
  rewrite strptime_strftime by exact Hnow. cbn.
  rewrite int_str. cbn. unfold add_minutes. fold (booking_end now duration_).
  pose proof (whole_seconds_bounds now) as Hws.
  assert (H : 0 <= booking_end now duration_)
    by (unfold booking_end, US_PER_MINUTE, US_PER_SECOND in *; lia).
  rewrite (proj2 (Z.leb_le _ _) H), (proj2 (Z.ltb_lt _ _) Hend). reflexivity.
Qed.

Lemma booking_end_after now duration_ : 0 < duration_ -> now < booking_end now duration_.
Proof.
  intros Hd. pose proof (whole_seconds_bounds now) as Hws.
  unfold booking_end, US_PER_MINUTE, US_PER_SECOND in *. lia.
Qed.

(** Reading the store [add_booking] wrote. *)
Lemma read_after_add_booking now rows seat new e :
  has_seat seat new -> status new = "Occupied"%string -> end_time new = Ok e ->
  now < e ->
  is_Ok (for_each (active_body now) ∅ rows) ->
  exists m,
    for_each (active_body now) ∅ (filter (fun r => ~ has_seat seat r) rows ++ [new]) = Ok m
    /\ m !! seat = Some (entry_of e new).
Proof.
  intros Hseat Hst He Hlt Hok.
  assert (Hnew : reported now new = Ok (Some (seat, entry_of e new)))
    by (apply reported_Some; eauto 10).
  assert (Hok' : is_Ok (for_each (active_body now) ∅
                          (filter (fun r => ~ has_seat seat r) rows ++ [new]))).
  { apply for_each_active_is_Ok in Hok. apply for_each_active_is_Ok.
    apply Forall_app. split.
    - apply Forall_forall. intros r Hr. apply list_elem_of_filter in Hr as [_ Hr].
      rewrite Forall_forall in Hok. now apply Hok.
    - apply Forall_singleton. rewrite Hnew. apply is_Ok_Ok. }
  destruct Hok' as [m Hm]. exists m. split; [exact Hm|].
  assert (Hsome : is_Some (m !! seat)).
  { apply (for_each_active_complete _ _ _ _ _ Hm). right.
    exists new, (entry_of e new). split; [|exact Hnew].
    apply elem_of_app. right. apply list_elem_of_here. }
  destruct Hsome as [v Hv]. rewrite Hv. f_equal.
  destruct (for_each_active_sound _ _ _ _ _ _ Hm Hv) as [H|(r & Hr & Hrep)];
    [now rewrite lookup_empty in H|].
  apply elem_of_app in Hr as [Hr|Hr].
  - apply list_elem_of_filter in Hr as [Hno _].
    apply reported_Some in Hrep as (_ & e' & _ & _ & H & _). contradiction.
  - apply list_elem_of_singleton in Hr as ->. rewrite Hnew in Hrep.
    now injection Hrep as ->.
Qed.

End BookingFacts.




(** ** The handlers of the application *)

Section AppFacts.

Lemma App_eta app : {| active := active app; disk := disk app |} = app.
Proof. now destruct app. Qed.

Lemma on_disk_read now app :
  on_disk (read_active_bookings now) app
  = (fst (read_active_bookings now (disk app)), app).
Proof.
  unfold on_disk. rewrite read_active_bookings_eq. cbn [fst]. now rewrite App_eta.
Qed.

(** Refreshing reads the store and replaces the cache; the store stays. *)
Lemma refresh_booking_list_disk now app :
  disk (snd (refresh_booking_list now app)) = disk app.
Proof.
  unfold refresh_booking_list, mbind, UI_bind. rewrite on_disk_read.
  now destruct (fst (read_active_bookings now (disk app))).
Qed.

Lemma refresh_ui_disk now app : disk (snd (refresh_ui now app)) = disk app.
Proof.
  unfold refresh_ui, mbind, UI_bind. rewrite on_disk_read.
  destruct (fst (read_active_bookings now (disk app))) as [a|e]; [|reflexivity].
  unfold set_active. now rewrite refresh_booking_list_disk.
Qed.

Lemma bind_disk {A B} (m : UI A) (f : A -> UI B) (d : FS) app :
  disk (snd (m app)) = d ->
  (forall a app', disk app' = d -> disk (snd (f a app')) = d) ->
  disk (snd ((m ≫= f) app)) = d.
Proof.
  intros Hm Hf. unfold mbind, UI_bind.
  destruct (m app) as [[a|e] app'] eqn:E; cbn [snd] in *; auto.
Qed.

(** What [confirm] does once the form is accepted: the store is the one
    [add_booking] leaves, whatever the refreshes after it do. *)
Lemma confirm_accepted seat now e app name_ mobile_ duration_ entry_time_ :
  parse_entries e = Ok (name_, mobile_, duration_, entry_time_) ->
  disk (snd (confirm seat now e app))
  = snd (add_booking now seat name_ mobile_ duration_ entry_time_ (disk app)).
Proof.
  intros Hp. unfold confirm. rewrite Hp.
  unfold mbind at 1, UI_bind at 1. unfold on_disk at 1.
  destruct (add_booking now seat name_ mobile_ duration_ entry_time_ (disk app))
    as [[[]|x] fs'] eqn:E; [|reflexivity].
  cbn [snd]. apply bind_disk; [now rewrite on_disk_read|].
  intros a app1 H1. apply bind_disk; [exact H1|].
  intros _ app2 H2. apply bind_disk; [now rewrite refresh_ui_disk|].
  intros _ app3 H3. apply bind_disk; [now rewrite refresh_booking_list_disk|].
  intros _ app4 H4. exact H4.
Qed.

(** The form is accepted exactly when the three texts are not blank and
    the duration reads as an integer, of whatever sign. *)
Lemma parse_entries_Ok e :
  is_Ok (parse_entries e)
  <-> Py.strip (Name e) <> EmptyString /\ Py.strip (Mobile e) <> EmptyString
      /\ Py.strip (Entry_Time e) <> EmptyString
      /\ is_Ok (Py.int (Py.strip (Duration e))).
Proof.
  unfold parse_entries.
  destruct (Py.int (Py.strip (Duration e))) as [d|x]; cbn.
  - destruct (Py.strip (Name e)), (Py.strip (Mobile e)), (Py.strip (Entry_Time e));
      cbn; split;
      try (intros H; now apply not_is_Ok_Raise in H);
      try (intros (? & ? & ? & ?); congruence).
    + intros _. repeat split; try discriminate. apply is_Ok_Ok.
    + intros _. apply is_Ok_Ok.
  - split; [intros H; now apply not_is_Ok_Raise in H|].
    intros (_ & _ & _ & H). now apply not_is_Ok_Raise in H.
Qed.

Lemma reset_all_disk yes now app :
  disk (snd (reset_all yes now app))
  = if yes then snd (ensure_csv (disk app)) else disk app.
Proof.
  unfold reset_all. destruct yes; [|reflexivity].
  unfold mbind at 1, UI_bind at 1. unfold on_disk at 1.
  destruct (ensure_csv (disk app)) as [[[]|x] fs'] eqn:E; [|reflexivity].
  cbn [snd]. apply bind_disk; [reflexivity|].
  intros _ app1 H1. apply bind_disk; [now rewrite refresh_ui_disk|].
  intros _ app2 H2. apply bind_disk; [now rewrite refresh_booking_list_disk|].
  intros _ app3 H3. exact H3.
Qed.

(** [reset_all] on a store that exists: [ensure_csv] finds the file and
    writes nothing. *)
Lemma reset_all_existing_store yes now app rows :
  csv (disk app) = Some rows -> disk (snd (reset_all yes now app)) = disk app.
Proof.
  intros H. rewrite reset_all_disk. destruct yes; [|reflexivity].
  now rewrite ensure_csv_eq, H.
Qed.

Lemma ensure_csv_idempotent fs :
  snd (ensure_csv (snd (ensure_csv fs))) = snd (ensure_csv fs).
Proof.
  rewrite (ensure_csv_eq fs). destruct fs as [[rows|] [|]]; reflexivity.
Qed.

Lemma reset_all_idempotent yes now now' app :
  disk (snd (reset_all yes now' (snd (reset_all yes now app))))
  = disk (snd (reset_all yes now app)).
Proof.
  rewrite !reset_all_disk. destruct yes; [|reflexivity]. apply ensure_csv_idempotent.
Qed.

End AppFacts.

(** C2, as the code has it. A submission whose name, mobile or entry time
    is empty or blank, or whose duration text [int] does not accept, is
    answered with the error box, and the store and the cache stay as they
    were. *)
Theorem C2_confirm_rejects_invalid seat now e app :
  Py.strip (Name e) = EmptyString \/ Py.strip (Mobile e) = EmptyString
  \/ Py.strip (Entry_Time e) = EmptyString
  \/ ~ is_Ok (Py.int (Py.strip (Duration e))) ->
  confirm seat now e app = (Ok Error_invalid_input, app).
Proof.
  intros H. unfold confirm.
  destruct (parse_entries e) as [[[[n mo] d] et]|x] eqn:E; [|reflexivity].
  exfalso.
  assert (Hok : is_Ok (parse_entries e)) by (rewrite E; apply is_Ok_Ok).
  apply parse_entries_Ok in Hok as (H1 & H2 & H3 & H4). tauto.
Qed.

Lemma C2_confirm_rejects_invalid_witness :
  confirm 4 t0 form_blank_name app_asha = (Ok Error_invalid_input, app_asha).
Proof.
  apply (C2_confirm_rejects_invalid 4 t0 form_blank_name app_asha).
  left. vm_compute. reflexivity.
Defined.

(** C2 as stated fails for a duration that is an integer but not
    positive: with ["0"], and with ["-5"], the form is accepted, the
    "Booked" box is shown and the booking is written to the store. *)
Lemma C2_counterexample :
  (Py.int (Py.strip (Duration form_zero)) = Ok 0
   /\ fst (confirm 4 t0 form_zero app_empty) = Ok (Info_booked 4 0)
   /\ records (disk (snd (confirm 4 t0 form_zero app_empty)))
      = [new_booking t0 4 "Asha" "9999999999" 0 "10:10"]
   /\ records (disk (snd (confirm 4 t0 form_zero app_empty))) <> records (disk app_empty))
  /\ (Py.int (Py.strip (Duration form_negative)) = Ok (-5)
      /\ fst (confirm 4 t0 form_negative app_empty) = Ok (Info_booked 4 (-5))
      /\ records (disk (snd (confirm 4 t0 form_negative app_empty)))
         = [new_booking t0 4 "Asha" "9999999999" (-5) "10:10"]).
Proof.
  repeat split; try (vm_compute; reflexivity).
  vm_compute. discriminate.
Qed.

(** ** "Reset All Seats" *)

(** C1 fails on the code. [reset_all] calls [ensure_csv], which writes
    the header only when the file is missing: after five active bookings
    and a confirmed "Reset All Seats" the "reset successfully" box is
    shown, the store is what it was, with its five records, and the
    resolver still reports the five seats. *)
Theorem C1_reset_all_keeps_five_bookings :
  length (records (disk app_five)) = 5%nat
  /\ size (active app_five) = 5%nat
  /\ fst (reset_all true (t0 + half_minute) app_five) = Ok Info_all_reset
  /\ disk (snd (reset_all true (t0 + half_minute) app_five)) = disk app_five
  /\ length (records (disk (snd (reset_all true (t0 + half_minute) app_five)))) = 5%nat
  /\ exists m,
       fst (read_active_bookings (t0 + half_minute)
              (disk (snd (reset_all true (t0 + half_minute) app_five)))) = Ok m
       /\ size m = 5%nat /\ m <> ∅.
Proof.
  assert (Hd : disk (snd (reset_all true (t0 + half_minute) app_five)) = disk app_five)
    by (eapply reset_all_existing_store; vm_compute; reflexivity).
  split; [vm_compute; reflexivity|]. split; [vm_compute; reflexivity|].
  split; [vm_compute; reflexivity|]. split; [exact Hd|].
  rewrite Hd. split; [vm_compute; reflexivity|].
  destruct (fst (read_active_bookings (t0 + half_minute) (disk app_five)))
    as [m|x] eqn:E; [|vm_compute in E; discriminate E].
  exists m. split; [reflexivity|].
  assert (Hs : size m = 5%nat)
    by (vm_compute in E; injection E as <-; vm_compute; reflexivity).
  split; [exact Hs|]. intros ->. rewrite map_size_empty in Hs. discriminate Hs.
Qed.

(** C8 fails on the code, by the defect of C1. A second [reset_all]
    leaves the store the first one left, and a second
    [update_booking_status] the store the first one left; but the store
    after one or two [reset_all] is not empty: Asha's record is still
    there, and Occupied. *)
Theorem C8_reset_all_twice_is_not_empty :
  let once := snd (reset_all true (t0 + half_minute) app_asha) in
  let twice := snd (reset_all true (t0 + half_minute) once) in
  disk twice = disk once
  /\ records (disk once) = [asha]
  /\ records (disk twice) = [asha]
  /\ records (disk twice) <> []
  /\ snd (update_booking_status 3 "Free" (snd (update_booking_status 3 "Free" fs_asha)))
     = snd (update_booking_status 3 "Free" fs_asha).
Proof.
  cbn zeta. split; [apply reset_all_idempotent|].
  split; [vm_compute; reflexivity|]. split; [vm_compute; reflexivity|].
  split; [vm_compute; discriminate|].
  now rewrite update_booking_status_idempotent.
Qed.

(** ** The expiry sweeper *)

Section SweeperFacts.

Lemma update_booking_status_updatable seat status_ fs :
  updatable fs ->
  exists fs', update_booking_status seat status_ fs = (Ok tt, fs') /\ updatable fs'.
Proof.
  intros [Hw Hr]. eexists. split; [now apply update_booking_status_completes|].
  split; [reflexivity|]. unfold records. cbn [csv]. now apply seats_readable_mark.
Qed.

(** With nothing happening meanwhile the pass of the thread is [sweep]. *)
Lemma sweep_items_with_id now items sent app :
  sweep_items_with id now items sent app = sweep_items now items sent app.
Proof.
  revert sent app. induction items as [|[seat [[[end_ name_] mobile_] et]] items IH];
    intros sent app; cbn [sweep_items_with sweep_items]; [reflexivity|].
  destruct (end_ <=? now); [|apply IH].
  unfold id at 2. unfold mbind at 1 3, UI_bind at 1 3.
  destruct (on_disk (update_booking_status seat "Free") app) as [[[]|x] app1];
    [|reflexivity].
  unfold mbind at 1 2, UI_bind at 1 2.
  destruct (pop_active seat app1) as [[[]|x] app2]; [apply IH | reflexivity].
Qed.

(** On a store that can be rewritten, and that the world keeps so, a
    pass over the snapshot completes. *)
Lemma sweep_items_with_updatable world now items sent app :
  (forall a, updatable (disk a) -> updatable (disk (world a))) ->
  updatable (disk app) ->
  exists sent' app', sweep_items_with world now items sent app = (Ok sent', app')
                     /\ updatable (disk app').
Proof.
  intros Hworld. revert sent app.
  induction items as [|[seat [[[end_ name_] mobile_] et]] items IH];
    intros sent app Hu; cbn [sweep_items_with].
  - now exists sent, app.
  - destruct (end_ <=? now); [|now apply IH].
    unfold mbind at 1, UI_bind at 1. unfold on_disk at 1.
    destruct (update_booking_status_updatable seat "Free" _ (Hworld _ Hu))
      as (fs' & -> & Hu').
    unfold mbind at 1, UI_bind at 1. unfold pop_active at 1. cbn [disk active].
    now apply IH.
Qed.

(** A pass that raises was left by the exception of a call
    [update_booking_status(seat, "Free")] for a seat of the snapshot that
    is over; [a] is the application as that call found it, and the pass
    leaves the cache of [a] and the file as the call left it. *)
Lemma sweep_items_with_raise world now items sent app e app' :
  sweep_items_with world now items sent app = (Raise e, app') ->
  exists seat v a,
    (seat, v) ∈ items /\ entry_end v <= now
    /\ update_booking_status seat "Free" (disk a) = (Raise e, disk app')
    /\ active app' = active a.
Proof.
  revert sent app. induction items as [|[seat [[[end_ name_] mobile_] et]] items IH];
    intros sent app; cbn [sweep_items_with].
  - discriminate.
  - destruct (Z.leb_spec end_ now) as [Hover|Hrun].
    + unfold mbind at 1, UI_bind at 1. unfold on_disk at 1.
      destruct (update_booking_status seat "Free" (disk (world app)))
        as [[[]|x] fs'] eqn:E.
      * unfold mbind at 1, UI_bind at 1. unfold pop_active at 1. cbn [disk active].
        intros H. apply IH in H as (seat' & v & a & Hin & H).
        exists seat', v, a. split; [now right | exact H].
      * intros [= <- <-]. exists seat, (end_, name_, mobile_, et), (world app).
        cbn [disk active entry_end]. split; [left|]. auto.
    + intros H. apply IH in H as (seat' & v & a & Hin & H).
      exists seat', v, a. split; [now right | exact H].
Qed.

End SweeperFacts.

(** C3, as the code has it. [auto_reset_thread] has no handler: when a
    pass of the sweeper raises, the exception leaves the [while] loop and
    the thread has ended, whatever ticks would follow, so nothing is
    retried. The exception is the one a call
    [update_booking_status(seat, "Free")] raised for a cached seat that is
    over. And at no reading from then on does the resolver report a seat
    of the cache that is over with the end time cached for it: a seat is
    active only while [now] is before its end. *)
Theorem C3_sweeper_dies_on_failed_write env now ticks sent app e app' :
  sweep_with env now sent (env app) = (Raise e, app') ->
  auto_reset_thread ((env, now) :: ticks) sent app = (Raise e, app')
  /\ (exists seat v a,
        active (env app) !! seat = Some v /\ entry_end v <= now
        /\ update_booking_status seat "Free" (disk a) = (Raise e, disk app')
        /\ active app' = active a)
  /\ forall seat end_ name_ mobile_ et now' m,
       active app' !! seat = Some (end_, name_, mobile_, et) ->
       end_ <= now -> now <= now' ->
       fst (read_active_bookings now' (disk app')) = Ok m ->
       m !! seat <> Some (end_, name_, mobile_, et).
Proof.
  intros Hs. split; [cbn [auto_reset_thread]; now rewrite Hs|]. split.
  - apply sweep_items_with_raise in Hs as (seat & v & a & Hin & H).
    apply elem_of_map_to_list in Hin. eauto.
  - intros seat end_ name_ mobile_ et now' m _ Hexp Hlater Hm Hl.
    destruct (read_active_bookings_sound _ _ _ _ _ Hm Hl)
      as (r & e' & _ & (_ & e'' & He'' & Hlt) & _ & He' & Hv).
    rewrite He' in He''. injection He'' as <-.
    unfold entry_of in Hv. injection Hv as -> _ _ _. lia.
Qed.

Lemma C3_sweeper_dies_on_failed_write_witness :
  auto_reset_thread [(id, asha_end); (allow_writes, asha_end + one_second)] [] app_stuck
  = (Raise OSError, app_stuck).
Proof.
  destruct (C3_sweeper_dies_on_failed_write id asha_end
              [(allow_writes, asha_end + one_second)] [] app_stuck OSError app_stuck)
    as [H _].
  - vm_compute. reflexivity.
  - exact H.
Defined.

(** C3 as stated fails. Asha's hour is over and the file cannot be
    written: the write of the first tick raises [OSError] and the thread
    ends there, so the second tick, before which the file can be written
    again, does not run. A sweeper woken at that second tick only would
    have freed the seat. The record is still Occupied in the store, and
    the resolver does not report it. *)
Lemma C3_counterexample :
  fst (update_booking_status 3 "Free" (disk app_stuck)) = Raise OSError
  /\ auto_reset_thread [(id, asha_end); (allow_writes, asha_end + one_second)] [] app_stuck
     = (Raise OSError, app_stuck)
  /\ ~ (exists sent app',
          auto_reset_thread [(id, asha_end); (allow_writes, asha_end + one_second)]
            [] app_stuck = (Ok sent, app'))
  /\ (exists app',
        auto_reset_thread [(allow_writes, asha_end + one_second)] [] app_stuck
        = (Ok [(3, "Asha"%string)], app')
        /\ records (disk app') = [set_row_status asha "Free"] /\ active app' = ∅)
  /\ records (disk app_stuck) = [asha] /\ status asha = "Occupied"%string
  /\ fst (read_active_bookings asha_end (disk app_stuck)) = Ok ∅.
Proof.
  assert (H : auto_reset_thread [(id, asha_end); (allow_writes, asha_end + one_second)]
                [] app_stuck = (Raise OSError, app_stuck)) by (vm_compute; reflexivity).
  split; [vm_compute; reflexivity|]. split; [exact H|].
  split; [intros (sent & app' & H'); rewrite H in H'; discriminate H'|].
  split; [eexists; split; [vm_compute; reflexivity | split; vm_compute; reflexivity]|].
  repeat split; vm_compute; reflexivity.
Qed.

(** The file is opened anew for every seat that is over, so a pass can
    be ended by its second write: one seat is freed and has left the
    cache, the other keeps its record and its entry, and the thread has
    ended. *)
Example pass_ends_after_freeing_a_seat :
  exists app',
    auto_reset_thread [(refuse_after_first, asha_end); (allow_writes, asha_end + one_second)]
      [] app_two = (Raise OSError, app')
    /\ size (active app') = 1%nat
    /\ length (filter (fun r => status r = "Free"%string) (records (disk app'))) = 1%nat
    /\ length (filter (fun r => status r = "Occupied"%string) (records (disk app'))) = 1%nat.
Proof.
  eexists. split; [vm_compute; reflexivity|]. repeat split; vm_compute; reflexivity.
Qed.

(** ** The answer of the resolver, as a function of the rows *)

Section AnswerFacts.
Variable now : Datetime.datetime.

Lemma for_each_active_foldl acc rows m :
  for_each (active_body now) acc rows = Ok m ->
  m = foldl (insert_reported now) acc rows.
Proof.
  revert acc. induction rows as [|r rows IH]; intros acc; cbn [for_each foldl].
  - now intros [= ->].
  - rewrite active_body_reported. unfold insert_reported.
    destruct (reported now r) as [[[k v]|]|e]; cbn; [apply IH | apply IH | discriminate].
Qed.

Lemma reported_key r k v : reported now r = Ok (Some (k, v)) -> has_seat k r.
Proof. intros H. now apply reported_Some in H as (_ & e & _ & _ & H & _). Qed.

Lemma insert_reported_same_seat seat a r :
  has_seat seat r -> delete seat (insert_reported now a r) = delete seat a.
Proof.
  intros Hs. unfold insert_reported.
  destruct (reported now r) as [[[k v]|]|e] eqn:E; try reflexivity.
  rewrite (has_seat_functional _ _ _ (reported_key _ _ _ E) Hs).
  apply delete_insert_eq.
Qed.

Lemma insert_reported_other_seat seat a r :
  ~ has_seat seat r ->
  delete seat (insert_reported now a r) = insert_reported now (delete seat a) r.
Proof.
  intros Hs. unfold insert_reported.
  destruct (reported now r) as [[[k v]|]|e] eqn:E; try reflexivity.
  apply delete_insert_ne. intros <-. apply Hs. exact (reported_key _ _ _ E).
Qed.

(** Without the rows of a seat the answer is the answer without the seat. *)
Lemma foldl_filter_seat seat acc (rows : list row) :
  foldl (insert_reported now) (delete seat acc) (filter (fun r => ~ has_seat seat r) rows)
  = delete seat (foldl (insert_reported now) acc rows).
Proof.
  revert acc. induction rows as [|r rows IH]; intros acc; [reflexivity|].
  cbn [foldl]. rewrite <- IH.
  destruct (decide (has_seat seat r)) as [H|H].
  - rewrite filter_cons_False by tauto. now rewrite insert_reported_same_seat.
  - rewrite filter_cons_True by exact H. cbn [foldl].
    now rewrite insert_reported_other_seat.
Qed.

Lemma reported_not_occupied r : status r <> "Occupied"%string -> reported now r = Ok None.
Proof. intros H. apply reported_None. now left. Qed.

(** With the rows of a seat given a status other than Occupied, too. *)
Lemma foldl_mark_seat seat status_ acc (rows : list row) :
  status_ <> "Occupied"%string ->
  foldl (insert_reported now) (delete seat acc) (mark seat status_ <$> rows)
  = delete seat (foldl (insert_reported now) acc rows).
Proof.
  intros Hst. revert acc. induction rows as [|r rows IH]; intros acc; [reflexivity|].
  rewrite fmap_cons. cbn [foldl]. rewrite <- IH.
  destruct (decide (has_seat seat r)) as [H|H].
  - rewrite insert_reported_same_seat by exact H. f_equal.
    unfold insert_reported at 1. rewrite reported_not_occupied; [reflexivity|].
    now rewrite mark_status.
  - rewrite mark_other by exact H. now rewrite insert_reported_other_seat.
Qed.

Lemma reported_mark_is_Ok seat status_ r :
  status_ <> "Occupied"%string ->
  is_Ok (reported now r) -> is_Ok (reported now (mark seat status_ r)).
Proof.
  intros Hst Hok. destruct (decide (has_seat seat r)) as [H|H].
  - rewrite reported_not_occupied; [apply is_Ok_Ok | now rewrite mark_status].
  - now rewrite mark_other.
Qed.

End AnswerFacts.

(** ** How the writes change the answer of the resolver *)

Section WriteThenRead.
Import Datetime StrptimeFacts.

Lemma end_time_new_booking_in_range now seat name_ mobile_ duration_ entry_time_ :
  wall_clock now -> 0 <= booking_end now duration_ < MAX ->
  end_time (new_booking now seat name_ mobile_ duration_ entry_time_)
  = Ok (booking_end now duration_).
Proof.
  intros Hnow [Hlo Hhi]. apply wall_clock_in_range in Hnow.
  unfold end_time, new_booking. cbn [start_time duration].
  rewrite strptime_strftime by exact Hnow. cbn.
  rewrite int_str. cbn. unfold add_minutes. fold (booking_end now duration_).
  rewrite (proj2 (Z.leb_le _ _) Hlo), (proj2 (Z.ltb_lt _ _) Hhi). reflexivity.
Qed.

Lemma read_active_bookings_foldl now fs m :
  fst (read_active_bookings now fs) = Ok m ->
  m = foldl (insert_reported now) ∅ (records fs).
Proof. rewrite read_active_bookings_fst. apply for_each_active_foldl. Qed.

Lemma read_active_bookings_is_Ok now fs :
  is_Ok (fst (read_active_bookings now fs))
  <-> Forall (fun r => is_Ok (reported now r)) (records fs).
Proof. rewrite read_active_bookings_fst. apply for_each_active_is_Ok. Qed.

End WriteThenRead.



Section MarkThenRead.
Variables (seat : Z) (status_ : string) (now : Datetime.datetime).
Hypothesis not_occupied : status_ <> "Occupied"%string.

Lemma read_marked_no_entry rows w m' :
  fst (read_active_bookings now {| csv := Some (mark seat status_ <$> rows); writable := w |})
  = Ok m' ->
  m' !! seat = None.
Proof.
  intros Hm'. destruct (m' !! seat) as [v|] eqn:Hl; [exfalso | reflexivity].
  destruct (read_active_bookings_sound _ _ _ _ _ Hm' Hl)
    as (r & e & Hr & (Hocc & _) & Hseat & _).
  unfold records in Hr. cbn [csv] in Hr.
  apply list_elem_of_fmap in Hr as (r0 & -> & _).
  apply has_seat_mark in Hseat. rewrite mark_status in Hocc by exact Hseat.
  contradiction.
Qed.

Lemma read_marked_delete fs w m :
  fst (read_active_bookings now fs) = Ok m ->
  fst (read_active_bookings now
         {| csv := Some (mark seat status_ <$> records fs); writable := w |})
  = Ok (delete seat m).
Proof.
  intros Hm.
  assert (Hok : is_Ok (fst (read_active_bookings now
                  {| csv := Some (mark seat status_ <$> records fs); writable := w |}))).
  { apply read_active_bookings_is_Ok. unfold records at 1. cbn [csv].
    assert (Hm' : is_Ok (fst (read_active_bookings now fs)))
      by (rewrite Hm; apply is_Ok_Ok).
    apply read_active_bookings_is_Ok in Hm'. rewrite Forall_fmap.
    eapply Forall_impl; [exact Hm'|]. intros r. now apply reported_mark_is_Ok. }
  destruct Hok as [m' Hm']. rewrite Hm'. f_equal.
  apply read_active_bookings_foldl in Hm'. apply read_active_bookings_foldl in Hm.
  unfold records at 1 in Hm'. cbn [csv] in Hm'.
  rewrite <- (delete_empty (M := gmap Z) seat) in Hm' at 1.
  rewrite foldl_mark_seat in Hm' by exact not_occupied. now rewrite <- Hm in Hm'.
Qed.

End MarkThenRead.

(** X2. Marking a seat with a status other than Occupied frees that seat
    and no other: after an [update_booking_status] that completes, the
    resolver has no entry for the seat, and where it answered [m] before
    it answers [m] without the seat. *)
Theorem update_booking_status_frees_one_seat seat status_ fs fs' now :
  status_ <> "Occupied"%string ->
  update_booking_status seat status_ fs = (Ok tt, fs') ->
  (forall m', fst (read_active_bookings now fs') = Ok m' -> m' !! seat = None)
  /\ (forall m, fst (read_active_bookings now fs) = Ok m ->
        fst (read_active_bookings now fs') = Ok (delete seat m)).
Proof.
  intros Hst Hup. apply update_booking_status_completed in Hup as (_ & _ & ->).
  split.
  - intros m'. now apply read_marked_no_entry.
  - intros m. now apply read_marked_delete.
Qed.

Lemma update_booking_status_frees_one_seat_witness :
  fst (read_active_bookings (t0 + half_minute) (snd (update_booking_status 3 "Free" fs_asha)))
  = Ok (delete 3 {[ 3 := entry_of asha_end asha ]}).
Proof.
  apply (update_booking_status_frees_one_seat 3 "Free" fs_asha
           (snd (update_booking_status 3 "Free" fs_asha)) (t0 + half_minute)).
  - discriminate.
  - vm_compute. reflexivity.
  - vm_compute. reflexivity.
Defined.

(** ** How the CSV handlers fail, and what they keep *)



(** X4. [ensure_csv] never loses a booking: it leaves the records and
    the answer of the resolver as they were, it completes exactly when
    the file exists or can be written, the file exists once it has
    completed, and a second call changes nothing. *)
Theorem ensure_csv_keeps_records now fs :
  records (snd (ensure_csv fs)) = records fs
  /\ fst (read_active_bookings now (snd (ensure_csv fs)))
     = fst (read_active_bookings now fs)
  /\ (fst (ensure_csv fs) = Ok tt <-> csv fs <> None \/ writable fs = true)
  /\ (fst (ensure_csv fs) = Ok tt -> csv (snd (ensure_csv fs)) <> None)
  /\ ensure_csv (snd (ensure_csv fs)) = (fst (ensure_csv fs), snd (ensure_csv fs)).
Proof.
  rewrite !read_active_bookings_fst.
  destruct fs as [[rows|] [|]]; cbn; repeat split; auto; try discriminate;
    intros [H|H]; congruence.
Qed.

Lemma ensure_csv_keeps_records_witness : csv (snd (ensure_csv fs_absent)) <> None.
Proof.
  apply (ensure_csv_keeps_records t0 fs_absent). vm_compute. reflexivity.
Defined.

Section Reachable.

Lemma one_record_per_seat_mark seat status_ (rows : list row) :
  one_record_per_seat rows -> one_record_per_seat (mark seat status_ <$> rows).
Proof.
  intros Hone s. specialize (Hone s).
  assert (E : length (filter (has_seat s) (mark seat status_ <$> rows))
              = length (filter (has_seat s) rows)).
  { clear Hone. induction rows as [|r rows IH]; [reflexivity|].
    rewrite fmap_cons, !filter_cons.
    destruct (decide (has_seat s r)) as [H|H].
    - rewrite decide_True by now apply has_seat_mark. cbn. now rewrite IH.
    - rewrite decide_False by now rewrite has_seat_mark. exact IH. }
  now rewrite E.
Qed.

Lemma run_op_store_inv op fs : store_inv fs -> store_inv (snd (run_op op fs)).
Proof.
  intros [Hr Hone]. destruct op as [|now seat n mo d et|seat st]; cbn [run_op].
  - destruct fs as [[rows|] [|]]; cbn; split; auto; try constructor;
      intros s; cbn; lia.
  - rewrite add_booking_eq, write_rows_eq. rewrite decide_True by exact Hr.
    destruct (writable fs); [|split; assumption].
    destruct (upsert_rows seat (new_booking now seat n mo d et)
                (has_seat_new_booking _ _ _ _ _ _) (records fs)) as (_ & _ & H3 & H4).
    split; [exact (H3 Hr) | exact (H4 Hone)].
  - rewrite update_booking_status_eq, write_rows_eq. rewrite decide_True by exact Hr.
    destruct (writable fs); [|split; assumption].
    split; [now apply seats_readable_mark | now apply one_record_per_seat_mark].
Qed.

Lemma run_op_writable op fs : writable (snd (run_op op fs)) = writable fs.
Proof.
  destruct op as [|now seat n mo d et|seat st]; cbn [run_op].
  - destruct fs as [[rows|] [|]]; reflexivity.
  - rewrite add_booking_eq, write_rows_eq.
    destruct (decide _); [|reflexivity]. now destruct (writable fs) eqn:E.
  - rewrite update_booking_status_eq, write_rows_eq.
    destruct (decide _); [|reflexivity]. now destruct (writable fs) eqn:E.
Qed.

Lemma run_op_completes op fs :
  store_inv fs -> writable fs = true -> fst (run_op op fs) = Ok tt.
Proof.
  intros [Hr _] Hw. destruct op as [|now seat n mo d et|seat st]; cbn [run_op].
  - destruct fs as [[rows|] w]; cbn in *; [reflexivity | now rewrite Hw].
  - now rewrite add_booking_completes.
  - now rewrite update_booking_status_completes.
Qed.

Lemma run_ops_snoc ops op fs :
  run_ops (ops ++ [op]) fs = snd (run_op op (run_ops ops fs)).
Proof. unfold run_ops. now rewrite foldl_snoc. Qed.

Lemma run_ops_store_inv ops fs : store_inv fs -> store_inv (run_ops ops fs).
Proof.
  induction ops as [|op ops IH] using rev_ind; intros H; [exact H|].
  rewrite run_ops_snoc. now apply run_op_store_inv, IH.
Qed.

Lemma run_ops_writable ops fs : writable (run_ops ops fs) = writable fs.
Proof.
  induction ops as [|op ops IH] using rev_ind; [reflexivity|].
  now rewrite run_ops_snoc, run_op_writable.
Qed.

Lemma store_inv_no_records fs : records fs = [] -> store_inv fs.
Proof.
  intros H. unfold store_inv. rewrite H. split; [constructor|]. intros s. cbn. lia.
Qed.

End Reachable.



Section WellFormedRows.
Import Datetime.

Lemma row_well_formed_readable r : row_well_formed r -> row_readable r.
Proof. intros [H1 H2] _. split; assumption. Qed.

Lemma row_well_formed_mark seat status_ r :
  row_well_formed r -> row_well_formed (mark seat status_ r).
Proof. unfold mark. now destruct (decide _). Qed.

Lemma row_well_formed_new_booking now seat name_ mobile_ duration_ entry_time_ :
  wall_clock now -> 0 <= booking_end now duration_ < MAX ->
  row_well_formed (new_booking now seat name_ mobile_ duration_ entry_time_).
Proof.
  intros Hnow Hend. split.
  - rewrite (has_seat_new_booking now seat name_ mobile_ duration_ entry_time_).
    apply is_Ok_Ok.
  - rewrite end_time_new_booking_in_range by assumption. apply is_Ok_Ok.
Qed.

Lemma run_op_well_formed op fs :
  in_range_op op ->
  Forall row_well_formed (records fs) ->
  Forall row_well_formed (records (snd (run_op op fs))).
Proof.
  intros Hop Hwf. destruct op as [|now seat n mo d et|seat st]; cbn [run_op].
  - destruct fs as [[rows|] [|]]; cbn; auto.
  - rewrite add_booking_eq, write_rows_eq.
    destruct (decide _); [|exact Hwf]. destruct (writable fs); [|exact Hwf].
    unfold records at 1. cbn [csv snd]. apply Forall_app. split.
    + apply Forall_forall. intros r Hr. apply list_elem_of_filter in Hr as [_ Hr].
      rewrite Forall_forall in Hwf. now apply Hwf.
    + apply Forall_singleton. destruct Hop. now apply row_well_formed_new_booking.
  - rewrite update_booking_status_eq, write_rows_eq.
    destruct (decide _); [|exact Hwf]. destruct (writable fs); [|exact Hwf].
    unfold records at 1. cbn [csv snd]. rewrite Forall_fmap.
    eapply Forall_impl; [exact Hwf|]. intros r. apply row_well_formed_mark.
Qed.

Lemma run_ops_well_formed ops fs :
  Forall in_range_op ops ->
  Forall row_well_formed (records fs) ->
  Forall row_well_formed (records (run_ops ops fs)).
Proof.
  induction ops as [|op ops IH] using rev_ind; intros Hops Hwf; [exact Hwf|].
  apply Forall_app in Hops as [Hops Hop]. rewrite Forall_singleton in Hop.
  rewrite run_ops_snoc. apply run_op_well_formed; [exact Hop | now apply IH].
Qed.

End WellFormedRows.



(** ** The handlers, outcome by outcome *)

Section HandlerOutcomes.

Lemma refresh_booking_list_eq now app :
  refresh_booking_list now app
  = (match fst (read_active_bookings now (disk app)) with
     | Ok _ => Ok tt
     | Raise e => Raise e
     end, app).
Proof.
  unfold refresh_booking_list, mbind, UI_bind. rewrite on_disk_read.
  now destruct (fst (read_active_bookings now (disk app))).
Qed.

Lemma refresh_ui_eq now app :
  refresh_ui now app
  = match fst (read_active_bookings now (disk app)) with
    | Ok m => (Ok tt, {| active := m; disk := disk app |})
    | Raise e => (Raise e, app)
    end.
Proof.
  unfold refresh_ui, mbind, UI_bind. rewrite on_disk_read.
  destruct (fst (read_active_bookings now (disk app))) as [m|e] eqn:E; [|reflexivity].
  unfold set_active. rewrite refresh_booking_list_eq. cbn [disk]. now rewrite E.
Qed.

(** The two refreshes that end [confirm], [reset_seat] and [reset_all]. *)
Lemma refresh_twice {A} now (x : A) app :
  (refresh_ui now ≫= fun _ => refresh_booking_list now ≫= fun _ => mret x) app
  = match fst (read_active_bookings now (disk app)) with
    | Ok m => (Ok x, {| active := m; disk := disk app |})
    | Raise e => (Raise e, app)
    end.
Proof.
  unfold mbind at 1, UI_bind at 1. rewrite refresh_ui_eq.
  destruct (fst (read_active_bookings now (disk app))) as [m|e] eqn:E; [|reflexivity].
  unfold mbind, UI_bind. rewrite refresh_booking_list_eq. cbn [disk]. now rewrite E.
Qed.

Lemma confirm_eq seat now e app name_ mobile_ duration_ entry_time_ :
  parse_entries e = Ok (name_, mobile_, duration_, entry_time_) ->
  confirm seat now e app
  = match add_booking now seat name_ mobile_ duration_ entry_time_ (disk app) with
    | (Raise x, fs') => (Raise x, {| active := active app; disk := fs' |})
    | (Ok _, fs') =>
        match fst (read_active_bookings now fs') with
        | Ok m => (Ok (Info_booked seat duration_), {| active := m; disk := fs' |})
        | Raise x => (Raise x, {| active := active app; disk := fs' |})
        end
    end.
Proof.
  intros Hp. unfold confirm. rewrite Hp.
  unfold mbind at 1, UI_bind at 1. unfold on_disk at 1.
  destruct (add_booking now seat name_ mobile_ duration_ entry_time_ (disk app))
    as [[[]|x] fs'] eqn:E.
  - unfold mbind at 1, UI_bind at 1. rewrite on_disk_read. cbn [disk].
    destruct (fst (read_active_bookings now fs')) as [m|x] eqn:Er; [|reflexivity].
    unfold mbind at 1, UI_bind at 1. unfold set_active at 1. cbn [disk].
    rewrite refresh_twice. cbn [disk]. now rewrite Er.
  - reflexivity.
Qed.

Lemma reset_seat_eq seat now app :
  reset_seat seat now app
  = match update_booking_status seat "Free" (disk app) with
    | (Raise x, fs') => (Raise x, {| active := active app; disk := fs' |})
    | (Ok _, fs') =>
        match fst (read_active_bookings now fs') with
        | Ok m => (Ok tt, {| active := m; disk := fs' |})
        | Raise x => (Raise x, {| active := delete seat (active app); disk := fs' |})
        end
    end.
Proof.
  unfold reset_seat.
  unfold mbind at 1, UI_bind at 1. unfold on_disk at 1.
  destruct (update_booking_status seat "Free" (disk app)) as [[[]|x] fs'] eqn:E.
  - unfold mbind at 1, UI_bind at 1. unfold pop_active at 1. cbn [disk active].
    unfold mbind at 1, UI_bind at 1. rewrite refresh_ui_eq. cbn [disk].
    destruct (fst (read_active_bookings now fs')) as [m|x] eqn:Er; [|reflexivity].
    rewrite refresh_booking_list_eq. cbn [disk]. now rewrite Er.
  - reflexivity.
Qed.

Lemma reset_all_eq now app :
  reset_all true now app
  = match ensure_csv (disk app) with
    | (Raise x, fs') => (Raise x, {| active := active app; disk := fs' |})
    | (Ok _, fs') =>
        match fst (read_active_bookings now fs') with
        | Ok m => (Ok Info_all_reset, {| active := m; disk := fs' |})
        | Raise x => (Raise x, {| active := ∅; disk := fs' |})
        end
    end.
Proof.
  unfold reset_all.
  unfold mbind at 1, UI_bind at 1. unfold on_disk at 1.
  destruct (ensure_csv (disk app)) as [[[]|x] fs'] eqn:E.
  - unfold mbind at 1, UI_bind at 1. unfold set_active at 1. cbn [disk].
    rewrite refresh_twice. cbn [disk].
    now destruct (fst (read_active_bookings now fs')).
  - reflexivity.
Qed.

End HandlerOutcomes.

(** X7. The periodic refresh never writes: [refresh_ui] leaves the store
    as it is; when the resolver returns a mapping that mapping replaces
    the cache, and when the resolver raises the exception leaves
    [refresh_ui] and the cache keeps what it held. *)
Theorem refresh_ui_reads_only now app :
  disk (snd (refresh_ui now app)) = disk app
  /\ (forall m, fst (read_active_bookings now (disk app)) = Ok m ->
        refresh_ui now app = (Ok tt, {| active := m; disk := disk app |}))
  /\ (forall e, fst (read_active_bookings now (disk app)) = Raise e ->
        refresh_ui now app = (Raise e, app)).
Proof.
  rewrite refresh_ui_eq.
  destruct (fst (read_active_bookings now (disk app))) as [m|e];
    repeat split; intros; congruence.
Qed.

Lemma refresh_ui_reads_only_witness :
  refresh_ui (t0 + half_minute) app_empty = (Ok tt, {| active := ∅; disk := disk app_empty |})
  /\ refresh_ui t0 {| active := ∅; disk := fs_long |}
     = (Raise OverflowError, {| active := ∅; disk := fs_long |}).
Proof.
  split.
  - apply (refresh_ui_reads_only (t0 + half_minute) app_empty). vm_compute. reflexivity.
  - apply (refresh_ui_reads_only t0 {| active := ∅; disk := fs_long |}).
    vm_compute. reflexivity.
Defined.

(** X8. [confirm] on an accepted form: when [add_booking] raises, the
    exception leaves the handler (it is outside the [try]), no box is
    shown, the cache keeps what it held and the file is as [add_booking]
    left it; when it completes the booking stays written even if the
    resolver then raises, and in that case the cache keeps what it held;
    otherwise the "Booked" box is shown and the cache is the answer of
    the resolver on the new store. *)
Theorem confirm_accepted_outcomes seat now e app name_ mobile_ duration_ entry_time_ :
  parse_entries e = Ok (name_, mobile_, duration_, entry_time_) ->
  (forall x fs', add_booking now seat name_ mobile_ duration_ entry_time_ (disk app)
                 = (Raise x, fs') ->
     confirm seat now e app = (Raise x, {| active := active app; disk := fs' |}))
  /\ (forall fs', add_booking now seat name_ mobile_ duration_ entry_time_ (disk app)
                  = (Ok tt, fs') ->
        (forall x, fst (read_active_bookings now fs') = Raise x ->
           confirm seat now e app = (Raise x, {| active := active app; disk := fs' |}))
        /\ (forall m, fst (read_active_bookings now fs') = Ok m ->
              confirm seat now e app
              = (Ok (Info_booked seat duration_), {| active := m; disk := fs' |}))).
Proof.
  intros Hp. rewrite (confirm_eq _ _ _ _ _ _ _ _ Hp). split.
  - intros x fs' ->. reflexivity.
  - intros fs' ->. split; intros ? ->; reflexivity.
Qed.

Lemma confirm_accepted_outcomes_witness :
  confirm 4 t0 form_ravi app_stuck
  = (Raise OSError, {| active := active app_stuck; disk := disk app_stuck |}).
Proof.
  destruct (confirm_accepted_outcomes 4 t0 form_ravi app_stuck "Ravi" "8888888888" 45 "10:10")
    as [Hraise _].
  - vm_compute. reflexivity.
  - apply Hraise. vm_compute. reflexivity.
Defined.

(** X9. [reset_seat]: when [update_booking_status] raises, the exception
    leaves the handler, the cache keeps what it held, the seat included,
    and the file is as that call left it. When the handler completes, the
    records of the seat are marked Free and the others are as they were,
    the cache has no entry for the seat, and where the resolver answered
    [m] before, the cache is [m] without the seat. *)
Theorem reset_seat_frees_the_seat seat now app :
  (forall x fs', update_booking_status seat "Free" (disk app) = (Raise x, fs') ->
     reset_seat seat now app = (Raise x, {| active := active app; disk := fs' |}))
  /\ (forall app', reset_seat seat now app = (Ok tt, app') ->
        records (disk app') = mark seat "Free" <$> records (disk app)
        /\ active app' !! seat = None
        /\ (forall m, fst (read_active_bookings now (disk app)) = Ok m ->
              active app' = delete seat m)).
Proof.
  rewrite reset_seat_eq.
  destruct (update_booking_status seat "Free" (disk app)) as [[[]|x] fs'] eqn:E.
  - split; [discriminate|]. intros app'.
    assert (Hfree : "Free"%string <> "Occupied"%string) by discriminate.
    apply update_booking_status_completed in E as (_ & _ & ->).
    destruct (fst (read_active_bookings now _)) as [m'|x] eqn:Er; [|discriminate].
    intros [= <-]. cbn [disk active].
    split; [reflexivity|]. split; [exact (read_marked_no_entry _ _ _ Hfree _ _ _ Er)|].
    intros m Hm. rewrite (read_marked_delete _ _ _ Hfree _ _ _ Hm) in Er. congruence.
  - split; [|discriminate]. now intros ? ? [= <- <-].
Qed.

Lemma reset_seat_frees_the_seat_witness :
  records (disk (snd (reset_seat 3 (t0 + half_minute) app_asha)))
  = mark 3 "Free" <$> records (disk app_asha)
  /\ active (snd (reset_seat 3 (t0 + half_minute) app_asha)) !! 3 = None.
Proof.
  destruct (reset_seat_frees_the_seat 3 (t0 + half_minute) app_asha) as [_ H].
  destruct (H (snd (reset_seat 3 (t0 + half_minute) app_asha))) as (H1 & H2 & _).
  - vm_compute. reflexivity.
  - split; [exact H1 | exact H2].
Defined.

(** X10. The handlers that end with a refresh leave a coherent cache:
    when [refresh_ui], [reset_seat], a confirmed [reset_all] or a
    [confirm] that shows "Booked" completes, the cache it leaves is the
    answer of the resolver on the store it leaves. *)
Theorem completed_handler_leaves_coherent_cache now app app' :
  refresh_ui now app = (Ok tt, app')
  \/ (exists seat, reset_seat seat now app = (Ok tt, app'))
  \/ reset_all true now app = (Ok Info_all_reset, app')
  \/ (exists seat e duration_,
        confirm seat now e app = (Ok (Info_booked seat duration_), app')) ->
  fst (read_active_bookings now (disk app')) = Ok (active app').
Proof.
  intros [H|[[seat H]|[H|(seat & e & d & H)]]].
  - rewrite refresh_ui_eq in H.
    destruct (fst (read_active_bookings now (disk app))) as [m|x] eqn:E; [|discriminate].
    injection H as <-. exact E.
  - rewrite reset_seat_eq in H.
    destruct (update_booking_status seat "Free" (disk app)) as [[[]|x] fs']; [|discriminate].
    destruct (fst (read_active_bookings now fs')) as [m|x] eqn:E; [|discriminate].
    injection H as <-. exact E.
  - rewrite reset_all_eq in H.
    destruct (ensure_csv (disk app)) as [[[]|x] fs']; [|discriminate].
    destruct (fst (read_active_bookings now fs')) as [m|x] eqn:E; [|discriminate].
    injection H as <-. exact E.
  - destruct (parse_entries e) as [[[[n mo] d'] et]|x] eqn:Hp.
    + rewrite (confirm_eq _ _ _ _ _ _ _ _ Hp) in H.
      destruct (add_booking now seat n mo d' et (disk app)) as [[[]|x] fs'];
        [|discriminate].
      destruct (fst (read_active_bookings now fs')) as [m|x] eqn:E; [|discriminate].
      injection H as _ <-. exact E.
    + unfold confirm in H. rewrite Hp in H. discriminate H.
Qed.

Lemma completed_handler_leaves_coherent_cache_witness :
  fst (read_active_bookings t0 (disk (snd (confirm 4 t0 form_ravi app_asha))))
  = Ok (active (snd (confirm 4 t0 form_ravi app_asha))).
Proof.
  apply (completed_handler_leaves_coherent_cache t0 app_asha).
  right. right. right. exists 4, form_ravi, 45. vm_compute. reflexivity.
Defined.

(** ** A pass of the sweeper that completes *)

Section SweepFacts.
Variable now : Datetime.datetime.

Lemma expired_cons_over seat end_ name_ mobile_ et items :
  end_ <= now ->
  expired now ((seat, (end_, name_, mobile_, et)) :: items)
  = (seat, (end_, name_, mobile_, et)) :: expired now items.
Proof. intros H. unfold expired. now rewrite filter_cons_True by exact H. Qed.

Lemma expired_cons_running seat end_ name_ mobile_ et items :
  now < end_ ->
  expired now ((seat, (end_, name_, mobile_, et)) :: items) = expired now items.
Proof. intros H. unfold expired. rewrite filter_cons_False; [reflexivity|]. cbn. lia. Qed.

(** What a pass over [items] that completes has done: one notification,
    one [pop] and one rewrite of the store for each item that is over. *)
Lemma sweep_items_Ok items sent app sent' app' :
  sweep_items now items sent app = (Ok sent', app') ->
  sent' = sent ++ ((fun item => (fst item, entry_name (snd item))) <$> expired now items)
  /\ active app' = foldl (fun a item => delete (fst item) a) (active app) (expired now items)
  /\ records (disk app')
     = foldl (fun rows item => mark (fst item) "Free" <$> rows) (records (disk app))
         (expired now items)
  /\ (expired now items = [] -> disk app' = disk app).
Proof.
  revert sent app. induction items as [|[seat [[[end_ name_] mobile_] et]] items IH];
    intros sent app; cbn [sweep_items].
  - intros [= <- <-]. cbn. now rewrite app_nil_r.
  - destruct (Z.leb_spec end_ now) as [Hover|Hrun].
    + rewrite expired_cons_over by exact Hover.
      unfold mbind at 1, UI_bind at 1. unfold on_disk at 1.
      destruct (update_booking_status seat "Free" (disk app)) as [[[]|x] fs'] eqn:E;
        [|discriminate].
      unfold mbind at 1, UI_bind at 1. unfold pop_active at 1. cbn [disk active].
      intros H. apply IH in H as (-> & -> & Hrec & _). cbn [disk active] in *.
      apply update_booking_status_completed in E as (_ & _ & ->).
      rewrite fmap_cons, <- app_assoc. cbn [foldl fst snd entry_name].
      repeat split; [exact Hrec | discriminate].
    + rewrite expired_cons_running by exact Hrun. apply IH.
Qed.

Lemma foldl_delete_lookup (l : list (Z * entry)) (a : gmap Z entry) k :
  foldl (fun a item => delete (fst item) a) a l !! k
  = if decide (k ∈ l.*1) then None else a !! k.
Proof.
  revert a. induction l as [|[k' v] l IH]; intros a; cbn [foldl].
  - rewrite decide_False; [reflexivity | apply not_elem_of_nil].
  - rewrite IH, fmap_cons. cbn [fst].
    destruct (decide (k ∈ l.*1)) as [H|H].
    + rewrite decide_True; [reflexivity | now right].
    + destruct (decide (k = k')) as [->|Hne].
      * rewrite decide_True by left. apply lookup_delete_eq.
      * rewrite decide_False by (rewrite elem_of_cons; tauto).
        now apply lookup_delete_ne.
Qed.

Lemma elem_of_expired_cache (items : list (Z * entry)) (a : gmap Z entry) k :
  items ≡ₚ map_to_list a ->
  k ∈ (expired now items).*1
  <-> exists v, a !! k = Some v /\ entry_end v <= now.
Proof.
  intros Hperm. rewrite list_elem_of_fmap. split.
  - intros ([k' v] & -> & H). apply list_elem_of_filter in H as [Hover H].
    rewrite Hperm in H. apply elem_of_map_to_list in H. eauto.
  - intros (v & Hv & Hover). exists (k, v). split; [reflexivity|].
    apply list_elem_of_filter. split; [exact Hover|].
    rewrite Hperm. now apply elem_of_map_to_list.
Qed.

(** The marks of several seats, row by row. *)
Lemma foldl_mark_rows (l : list (Z * entry)) (rows : list row) :
  foldl (fun rows item => mark (fst item) "Free" <$> rows) rows l
  = (fun r => if decide (Exists (fun item => has_seat (fst item) r) l)
              then set_row_status r "Free" else r) <$> rows.
Proof.
  revert rows. induction l as [|[k v] l IH]; intros rows; cbn [foldl].
  - rewrite <- (list_fmap_id rows) at 1. apply list_fmap_ext. intros i r _.
    rewrite decide_False; [reflexivity|]. now rewrite Exists_nil.
  - rewrite IH, <- list_fmap_compose. apply list_fmap_ext. intros i r _. cbn [fst compose].
    destruct (decide (has_seat k r)) as [Hk|Hk].
    + rewrite (decide_True (P := Exists _ (_ :: _))) by (left; exact Hk).
      unfold mark. rewrite (decide_True (P := has_seat k r)) by exact Hk.
      now destruct (decide _).
    + rewrite mark_other by exact Hk.
      destruct (decide (Exists (fun item => has_seat (fst item) r) l)) as [H|H].
      * now rewrite decide_True by (right; exact H).
      * rewrite decide_False; [reflexivity|]. rewrite Exists_cons. cbn [fst]. tauto.
Qed.

Lemma Exists_expired_cache (items : list (Z * entry)) (a : gmap Z entry) r :
  items ≡ₚ map_to_list a ->
  Exists (fun item => has_seat (fst item) r) (expired now items)
  <-> seat_expired now a r.
Proof.
  intros Hperm. rewrite Exists_exists. unfold seat_expired, has_seat. split.
  - intros ([k v] & H & Hk). cbn [fst] in Hk. rewrite Hk.
    apply list_elem_of_filter in H as [Hover H].
    rewrite Hperm in H. apply elem_of_map_to_list in H.
    now rewrite H.
  - destruct (Py.int (seat_id r)) as [k|x]; [|tauto].
    destruct (a !! k) as [v|] eqn:Hv; [|tauto]. intros Hover.
    exists (k, v). split; [|reflexivity].
    apply list_elem_of_filter. split; [exact Hover|].
    rewrite Hperm. now apply elem_of_map_to_list.
Qed.

(** With nothing over a pass does nothing. *)
Lemma sweep_items_nothing_over items sent app :
  Forall (fun item => now < entry_end (snd item)) items ->
  sweep_items now items sent app = (Ok sent, app).
Proof.
  induction 1 as [|[seat [[[end_ name_] mobile_] et]] items Hrun _ IH]; [reflexivity|].
  cbn [sweep_items]. cbn in Hrun.
  destruct (Z.leb_spec end_ now); [lia | exact IH].
Qed.

End SweepFacts.

Section SweepOnCache.
Variable now : Datetime.datetime.

Lemma sweep_idle sent app :
  (forall k v, active app !! k = Some v -> now < entry_end v) ->
  sweep now sent app = (Ok sent, app).
Proof.
  intros H. unfold sweep. apply sweep_items_nothing_over.
  apply Forall_forall. intros [k v] Hkv. apply elem_of_map_to_list in Hkv.
  exact (H k v Hkv).
Qed.

(** What a pass that completes leaves in the cache, in whatever order
    it walked it. *)
Lemma sweep_items_cache_lookup items sent app sent' app' k :
  items ≡ₚ map_to_list (active app) ->
  sweep_items now items sent app = (Ok sent', app') ->
  active app' !! k
  = match active app !! k with
    | Some v => if decide (entry_end v <= now) then None else Some v
    | None => None
    end.
Proof.
  intros Hperm H. apply sweep_items_Ok in H as (_ & -> & _).
  rewrite foldl_delete_lookup.
  destruct (decide (k ∈ (expired now items).*1)) as [Hin|Hout].
  - apply (elem_of_expired_cache _ _ _ _ Hperm) in Hin as (v & -> & Hover).
    now rewrite decide_True by exact Hover.
  - destruct (active app !! k) as [v|] eqn:Hv; [|reflexivity].
    rewrite decide_False; [reflexivity|]. intros Hover. apply Hout.
    apply (elem_of_expired_cache _ _ _ _ Hperm). eauto.
Qed.

End SweepOnCache.

(** X11. A pass of the sweeper that completes has freed what is over and
    nothing else, in whatever order the snapshot lists the cache: the
    cache keeps exactly its entries that end after [now]; in the store
    the records of the seats whose cached entry is over are marked Free
    and every other record is as it was; one "Time Over" notification was
    sent for each cached entry that is over, in the order of the
    snapshot; and a second pass at the same reading does nothing. *)
Theorem sweep_frees_what_is_over now items sent app sent' app' :
  items ≡ₚ map_to_list (active app) ->
  sweep_items now items sent app = (Ok sent', app') ->
  (forall k, active app' !! k
             = match active app !! k with
               | Some v => if decide (entry_end v <= now) then None else Some v
               | None => None
               end)
  /\ records (disk app')
     = (fun r => if decide (seat_expired now (active app) r)
                 then set_row_status r "Free" else r) <$> records (disk app)
  /\ sent' = sent ++ ((fun item => (fst item, entry_name (snd item)))
                      <$> filter (fun item => entry_end (snd item) <= now) items)
  /\ forall items', items' ≡ₚ map_to_list (active app') ->
       sweep_items now items' sent' app' = (Ok sent', app').
Proof.
  intros Hperm H.
  pose proof (fun k => sweep_items_cache_lookup now items sent app sent' app' k Hperm H)
    as Hl.
  split; [exact Hl|].
  apply sweep_items_Ok in H as (Hsent & _ & Hrec & _).
  split; [|split; [exact Hsent|]].
  - rewrite Hrec, foldl_mark_rows. apply list_fmap_ext. intros i r _.
    destruct (decide (Exists _ _)) as [He|He], (decide (seat_expired _ _ _)) as [Hs|Hs];
      try reflexivity; exfalso.
    + apply Hs. exact (proj1 (Exists_expired_cache now items _ r Hperm) He).
    + apply He. exact (proj2 (Exists_expired_cache now items _ r Hperm) Hs).
  - intros items' Hperm'. apply sweep_items_nothing_over.
    apply Forall_forall. intros [k v] Hkv. rewrite Hperm' in Hkv.
    apply elem_of_map_to_list in Hkv. rewrite Hl in Hkv. cbn [snd].
    destruct (active app !! k) as [v0|]; [|discriminate].
    destruct (decide (entry_end v0 <= now)); [discriminate|].
    injection Hkv as <-. lia.
Qed.

Lemma sweep_frees_what_is_over_witness :
  records (disk (snd (sweep_items asha_end [(3, entry_of asha_end asha)] [] app_asha)))
  = (fun r => if decide (seat_expired asha_end (active app_asha) r)
              then set_row_status r "Free" else r) <$> records (disk app_asha)
  /\ [(3, "Asha"%string)]
     = [] ++ ((fun item => (fst item, entry_name (snd item)))
              <$> filter (fun item => entry_end (snd item) <= asha_end)
                    [(3, entry_of asha_end asha)]).
Proof.
  destruct (sweep_frees_what_is_over asha_end [(3, entry_of asha_end asha)] [] app_asha
              [(3, "Asha"%string)]
              (snd (sweep_items asha_end [(3, entry_of asha_end asha)] [] app_asha)))
    as (_ & H2 & H3 & _).
  - unfold app_asha. cbn [active]. now rewrite map_to_list_singleton.
  - vm_compute. reflexivity.
  - split; [exact H2 | exact H3].
Defined.

(** X12. While no cached booking is over the sweeper writes nothing: the
    pass returns with the store, the cache and the notifications as they
    were, even when the file could not be written. *)
Theorem sweep_idle_while_nothing_is_over now sent app :
  (forall k v, active app !! k = Some v -> now < entry_end v) ->
  sweep now sent app = (Ok sent, app).
Proof.
  intros H. unfold sweep. apply sweep_items_nothing_over.
  apply Forall_forall. intros [k v] Hkv. apply elem_of_map_to_list in Hkv.
  exact (H k v Hkv).
Qed.

Lemma sweep_idle_while_nothing_is_over_witness :
  sweep (t0 + half_minute) [] app_stuck = (Ok [], app_stuck).
Proof.
  apply (sweep_idle_while_nothing_is_over (t0 + half_minute) [] app_stuck).
  intros k v Hkv. unfold app_stuck in Hkv. cbn [active] in Hkv.
  apply lookup_singleton_Some in Hkv as [_ <-]. vm_compute. reflexivity.
Defined.

(** X13. The sweeper frees only what ran out since the last refresh: on
    a cache that is the answer of the resolver at [now], a pass at any
    reading up to [now] does nothing. *)
Theorem sweep_idle_on_fresh_cache now now' sent app :
  fst (read_active_bookings now (disk app)) = Ok (active app) ->
  now' <= now ->
  sweep now' sent app = (Ok sent, app).
Proof.
  intros Hm Hle. apply sweep_idle. intros k v Hv.
  destruct (read_active_bookings_sound _ _ _ _ _ Hm Hv)
    as (r & e & _ & (_ & e' & He' & Hlt) & _ & He & ->).
  rewrite He in He'. injection He' as <-. cbn. lia.
Qed.

Lemma sweep_idle_on_fresh_cache_witness :
  sweep t0 [] app_asha = (Ok [], app_asha).
Proof.
  apply (sweep_idle_on_fresh_cache (t0 + half_minute) t0 [] app_asha).
  - vm_compute. reflexivity.
  - vm_compute. discriminate.
Defined.



(** ** The search box and the seat grid *)

Section SearchFacts.

Lemma parse_seat_Ok text sid :
  parse_seat text = Ok sid <-> Py.int text = Ok sid /\ 1 <= sid <= NUM_SEATS.
Proof.
  unfold parse_seat. destruct (Py.int text) as [k|x]; cbn.
  - destruct (Z.ltb_spec k 1), (Z.ltb_spec NUM_SEATS k); cbn;
      (split; [intros [= <-] | intros [[= <-] ?]]); try split; try reflexivity; lia.
  - split; [discriminate | intros [H _]; discriminate H].
Qed.

Lemma parse_seat_raises text e : parse_seat text = Raise e -> e = ValueError.
Proof.
  unfold parse_seat. destruct (Py.int text) as [k|x] eqn:E; cbn.
  - destruct ((k <? 1) || (NUM_SEATS <? k)); congruence.
  - intros [= <-]. exact (int_raises _ _ E).
Qed.

Lemma search_eq text now fs :
  search text now fs
  = (match parse_seat text with
     | Raise _ => Ok Search_error
     | Ok sid =>
         match fst (read_active_bookings now fs) with
         | Ok m => Ok (match m !! sid with
                       | Some booking => Seat_is_occupied sid booking
                       | None => Seat_is_free sid
                       end)
         | Raise e => Raise e
         end
     end, fs).
Proof.
  unfold search. destruct (parse_seat text) as [sid|x]; [|reflexivity].
  unfold mbind, IO_bind. rewrite read_active_bookings_eq. cbn [fst].
  now destruct (match csv fs with Some rows => _ | None => _ end).
Qed.

End SearchFacts.

(** X15. For a text of at most 4300 characters, which [int] converts
    whatever its digits: [search] shows the error box exactly when the
    text is not an integer from 1 to [NUM_SEATS] (0 and 51 are refused),
    and then it does not read the store; for a seat number in range it
    answers OCCUPIED with the entry the resolver has for the seat, FREE
    when the resolver has none, and lets the exception through when the
    resolver raises. It never writes. *)
Theorem search_checks_the_seat_number text now fs :
  (String.length text <= 4300)%nat ->
  snd (search text now fs) = fs
  /\ (fst (search text now fs) = Ok Search_error
      <-> ~ exists sid, Py.int text = Ok sid /\ 1 <= sid <= NUM_SEATS)
  /\ (forall sid, Py.int text = Ok sid -> 1 <= sid <= NUM_SEATS ->
        fst (search text now fs)
        = match fst (read_active_bookings now fs) with
          | Ok m => Ok (match m !! sid with
                        | Some booking => Seat_is_occupied sid booking
                        | None => Seat_is_free sid
                        end)
          | Raise e => Raise e
          end).
Proof.
  intros _. rewrite search_eq. cbn [fst snd]. split; [reflexivity|]. split.
  - destruct (parse_seat text) as [sid|x] eqn:E.
    + apply parse_seat_Ok in E. split; [|intros H; exfalso; eauto].
      destruct (fst (read_active_bookings now fs)) as [m|?]; [|discriminate].
      destruct (m !! sid); discriminate.
    + split; [|reflexivity]. intros _ (sid & H). apply parse_seat_Ok in H. congruence.
  - intros sid Hint Hrange.
    now rewrite (proj2 (parse_seat_Ok text sid) (conj Hint Hrange)).
Qed.

Lemma search_checks_the_seat_number_witness :
  fst (search "51" t0 fs_long) = Ok Search_error
  /\ fst (search " 3" t0 fs_asha) = Ok (Seat_is_occupied 3 (entry_of asha_end asha)).
Proof.
  split.
  - destruct (search_checks_the_seat_number "51" t0 fs_long) as (_ & H & _).
    + vm_compute. lia.
    + apply H. intros (sid & Hint & Hrange). vm_compute in Hint. injection Hint as <-.
      unfold NUM_SEATS in Hrange. lia.
  - destruct (search_checks_the_seat_number " 3" t0 fs_asha) as (_ & _ & H).
    + vm_compute. lia.
    + rewrite (H 3).
      * vm_compute. reflexivity.
      * vm_compute. reflexivity.
      * unfold NUM_SEATS. lia.
Defined.

Section GridFacts.

Lemma row_of_buttons (base cols : Z) :
  0 <= cols -> (c ← seqZ 0 cols; [base + c + 1]) = seqZ (base + 1) cols.
Proof.
  intros Hc. rewrite <- (Z2Nat.id cols) by exact Hc. generalize (Z.to_nat cols).
  intros n. induction n as [|n IH].
  - reflexivity.
  - rewrite Nat2Z.inj_succ, <- Z.add_1_r.
    rewrite !seqZ_app by lia. rewrite bind_app, IH. f_equal.
    change (seqZ ?a 1) with [a]. cbn. f_equal. lia.
Qed.

Lemma button_ids_seqZ rows cols :
  0 <= rows -> 0 <= cols -> button_ids rows cols = seqZ 1 (rows * cols).
Proof.
  intros Hr Hc. unfold button_ids.
  rewrite <- (Z2Nat.id rows) by exact Hr. generalize (Z.to_nat rows).
  intros n. induction n as [|n IH].
  - reflexivity.
  - rewrite Nat2Z.inj_succ, <- Z.add_1_r.
    rewrite seqZ_app by lia. rewrite bind_app, IH.
    change (seqZ (0 + Z.of_nat n) 1) with [0 + Z.of_nat n]. cbn [mbind list_bind app].
    rewrite app_nil_r.
    rewrite (row_of_buttons ((0 + Z.of_nat n) * cols) cols Hc).
    replace ((Z.of_nat n + 1) * cols) with (Z.of_nat n * cols + cols) by lia.
    rewrite (seqZ_app 1) by nia. do 2 f_equal. lia.
Qed.

End GridFacts.

(** X16. The grid numbers the seats from 1 to [ROWS * COLS] in order,
    each number once: a grid of [rows] by [cols] buttons has the ids
    [1 .. rows * cols], so no button replaces another in [self.buttons]
    and an id has a button exactly when it is from 1 to [rows * cols]. *)
Theorem button_ids_are_the_seats rows cols :
  0 <= rows -> 0 <= cols ->
  button_ids rows cols = seqZ 1 (rows * cols)
  /\ NoDup (button_ids rows cols)
  /\ forall sid, sid ∈ button_ids rows cols <-> 1 <= sid <= rows * cols.
Proof.
  intros Hr Hc. rewrite button_ids_seqZ by assumption.
  split; [reflexivity|]. split; [apply NoDup_seqZ|].
  intros sid. rewrite elem_of_seqZ. lia.
Qed.

Lemma button_ids_are_the_seats_witness :
  button_ids ROWS COLS = seqZ 1 NUM_SEATS
  /\ NoDup (button_ids ROWS COLS)
  /\ forall sid, sid ∈ button_ids ROWS COLS <-> 1 <= sid <= NUM_SEATS.
Proof.
  apply (button_ids_are_the_seats ROWS COLS); unfold ROWS, COLS; lia.
Defined.

(** X17. For a duration text of at most 4300 characters, which [int]
    converts whatever its digits: [confirm] shows the error box for no
    other submission than the ones it must refuse: the box is shown
    exactly when the name, the mobile or the entry time is blank or the
    duration is not an integer, whatever the store does; and what an
    accepted form hands to [add_booking] are the texts without their
    surrounding whitespace and the integer read from the duration. *)
Theorem confirm_error_box_iff seat now e app :
  (String.length (Duration e) <= 4300)%nat ->
  (fst (confirm seat now e app) = Ok Error_invalid_input
   <-> Py.strip (Name e) = EmptyString \/ Py.strip (Mobile e) = EmptyString
       \/ Py.strip (Entry_Time e) = EmptyString
       \/ ~ is_Ok (Py.int (Py.strip (Duration e))))
  /\ (forall name_ mobile_ duration_ entry_time_,
        parse_entries e = Ok (name_, mobile_, duration_, entry_time_) ->
        name_ = Py.strip (Name e) /\ mobile_ = Py.strip (Mobile e)
        /\ Py.int (Py.strip (Duration e)) = Ok duration_
        /\ entry_time_ = Py.strip (Entry_Time e)
        /\ disk (snd (confirm seat now e app))
           = snd (add_booking now seat (Py.strip (Name e)) (Py.strip (Mobile e))
                    duration_ (Py.strip (Entry_Time e)) (disk app))).
Proof.
  intros _. split.
  - destruct (parse_entries e) as [[[[n mo] d] et]|x] eqn:Hp.
    + assert (Hok : is_Ok (parse_entries e)) by (rewrite Hp; apply is_Ok_Ok).
      apply parse_entries_Ok in Hok as (H1 & H2 & H3 & H4).
      split; [|tauto].
      rewrite (confirm_eq _ _ _ _ _ _ _ _ Hp).
      destruct (add_booking now seat n mo d et (disk app)) as [[[]|?] fs'];
        [|discriminate].
      destruct (fst (read_active_bookings now fs')); discriminate.
    + split; [|unfold confirm; now rewrite Hp].
      intros _.
      assert (Hno : ~ is_Ok (parse_entries e)) by (rewrite Hp; apply not_is_Ok_Raise).
      rewrite parse_entries_Ok in Hno.
      destruct (decide (Py.strip (Name e) = EmptyString)); [tauto|].
      destruct (decide (Py.strip (Mobile e) = EmptyString)); [tauto|].
      destruct (decide (Py.strip (Entry_Time e) = EmptyString)); [tauto|].
      right. right. right. intros H. apply Hno. tauto.
  - intros n mo d et Hp. pose proof (confirm_accepted seat now e app _ _ _ _ Hp) as Hd.
    unfold parse_entries in Hp.
    destruct (Py.int (Py.strip (Duration e))) as [d'|x]; [|discriminate].
    cbn in Hp.
    destruct (Py.not_ (Py.strip (Name e)) || Py.not_ (Py.strip (Mobile e))
              || Py.not_ (Py.strip (Entry_Time e))); [discriminate|].
    injection Hp as <- <- <- <-. auto.
Qed.

Lemma confirm_error_box_iff_witness :
  disk (snd (confirm 4 t0 form_ravi app_asha))
  = snd (add_booking t0 4 (Py.strip (Name form_ravi)) (Py.strip (Mobile form_ravi))
           45 (Py.strip (Entry_Time form_ravi)) (disk app_asha)).
Proof.
  destruct (confirm_error_box_iff 4 t0 form_ravi app_asha) as [_ H].
  - vm_compute. lia.
  - destruct (H "Ravi"%string "8888888888"%string 45 "10:10"%string)
      as (_ & _ & _ & _ & Hdisk).
    + vm_compute. reflexivity.
    + exact Hdisk.
Defined.

(** ** The resolver on stores the program did not write *)

Section ResolverEdges.
Variable now : Datetime.datetime.

Lemma reported_is_Ok r :
  is_Ok (reported now r)
  <-> (status r = "Occupied"%string ->
       exists e, end_time r = Ok e /\ (now < e -> is_Ok (Py.int (seat_id r)))).
Proof.
  unfold reported.
  destruct (String.eqb_spec (status r) "Occupied") as [Hs|Hs].
  - destruct (end_time r) as [e|x]; cbn.
    + destruct (Z.ltb_spec now e) as [Hlt|Hge].
      * destruct (Py.int (seat_id r)) as [k|x]; cbn.
        -- split; [intros _ _; exists e; split; [reflexivity | intros _; apply is_Ok_Ok]
                  | intros _; apply is_Ok_Ok].
        -- split; [intros H; now apply not_is_Ok_Raise in H|].
           intros H. destruct (H Hs) as (e' & [= <-] & H').
           specialize (H' Hlt). now apply not_is_Ok_Raise in H'.
      * split; [|intros _; apply is_Ok_Ok].
        intros _ _. exists e. split; [reflexivity | lia].
    + split; [intros H; now apply not_is_Ok_Raise in H|].
      intros H. destruct (H Hs) as (e' & H' & _). discriminate H'.
  - split; [tauto | intros _; apply is_Ok_Ok].
Qed.

Lemma foldl_insert_reported_other (rows : list row) a k :
  (forall r v, r ∈ rows -> reported now r <> Ok (Some (k, v))) ->
  foldl (insert_reported now) a rows !! k = a !! k.
Proof.
  revert a. induction rows as [|r rows IH]; intros a H; [reflexivity|].
  cbn [foldl]. rewrite IH by (intros r' v Hr'; apply H; now right).
  unfold insert_reported. destruct (reported now r) as [[[k' v']|]|x] eqn:E; try reflexivity.
  apply lookup_insert_ne. intros ->. exact (H r v' (list_elem_of_here _ _) E).
Qed.

End ResolverEdges.



(** X19. Where a seat has several records the last active one wins: when
    the resolver returns a mapping, its entry for a seat is the entry of
    the active record of that seat after which the store has no other
    active record of the seat. *)
Theorem resolver_last_active_record_wins now fs rows1 r rows2 m k e :
  records fs = rows1 ++ r :: rows2 ->
  fst (read_active_bookings now fs) = Ok m ->
  is_active now r -> has_seat k r -> end_time r = Ok e ->
  (forall r', r' ∈ rows2 -> has_seat k r' -> ~ is_active now r') ->
  m !! k = Some (entry_of e r).
Proof.
  intros Hrows Hm (Hocc & e' & He' & Hlt) Hk He Hlast.
  rewrite He in He'. injection He' as <-.
  apply read_active_bookings_foldl in Hm as ->.
  rewrite Hrows, foldl_app. cbn [foldl].
  rewrite foldl_insert_reported_other.
  - unfold insert_reported.
    rewrite (proj2 (reported_Some now r k (entry_of e r))) by eauto 10.
    apply lookup_insert_eq.
  - intros r' v Hr' Hrep. apply reported_Some in Hrep as (Hocc' & e' & He' & Hlt' & Hk' & _).
    apply (Hlast r' Hr' Hk'). split; eauto.
Qed.

Lemma resolver_last_active_record_wins_witness :
  ({[ 3 := entry_of (booking_end (t0 + half_minute) 45) ravi ]} : gmap Z entry) !! 3
  = Some (entry_of (booking_end (t0 + half_minute) 45) ravi).
Proof.
  apply (resolver_last_active_record_wins (t0 + half_minute) fs_two_records [asha] ravi []).
  - reflexivity.
  - vm_compute. reflexivity.
  - split; [reflexivity|]. eexists. split; vm_compute; reflexivity.
  - vm_compute. reflexivity.
  - vm_compute. reflexivity.
  - intros r' Hr'. now apply not_elem_of_nil in Hr'.
Defined.
